(** * Fenjing: attribute/item rules, submitters and command-line helpers

    A shallow embedding of

      - [fenjing/rules/get_attritem.py]  (module [Rules]),
      - [fenjing/submitter.py]           (module [Submitter]),
      - [fenjing/cli.py]                 (module [Cli]),

    followed by the properties established about them.  Python [str] is
    [string], holding the UTF-8 bytes of the text ([PyStr.len] counts its
    code points), [bytes] is [list byte], a [dict] with string keys is a
    [gmap string _], and the tagged tuples of the grammar are the
    constructors of [target]. *)

From Stdlib Require Import ZArith List Bool Ascii String Lia.
From Stdlib Require Import Strings.Byte.
From stdpp Require Import gmap strings.
Import ListNotations.

Set Warnings "-register-all".
Local Open Scope string_scope.
Local Open Scope list_scope.

(* ===================================================================== *)
(** * Part I: definitions                                                 *)
(* ===================================================================== *)

(** ** Python string helpers *)

Module PyStr.

(** [s.startswith(p)] *)
Fixpoint startswith (p s : string) : bool :=
  match p, s with
  | EmptyString, _ => true
  | String a p', String b s' => Ascii.eqb a b && startswith p' s'
  | String _ _, EmptyString => false
  end.

(** [w in s] for two strings: [w] occurs in [s] as a contiguous run. *)
Fixpoint contains (w s : string) : bool :=
  startswith w s ||
  match s with
  | EmptyString => false
  | String _ s' => contains w s'
  end.

(** [s[n:]] *)
Fixpoint drop (n : nat) (s : string) : string :=
  match n, s with
  | O, _ => s
  | S _, EmptyString => EmptyString
  | S n', String _ s' => drop n' s'
  end.

(** [s.endswith(p)] *)
Definition endswith (p s : string) : bool :=
  String.eqb (drop (String.length s - String.length p) s) p
  && (String.length p <=? String.length s)%nat.

(** [''.join(l)] *)
Definition join (l : list string) : string :=
  fold_right String.append EmptyString l.

(** [len(s)].  A [str] is kept as its UTF-8 bytes and [len] counts code
    points: every byte but the continuation bytes, [0x80] to [0xBF], starts
    one. *)
Definition is_continuation (c : ascii) : bool :=
  ((128 <=? nat_of_ascii c) && (nat_of_ascii c <=? 191))%nat.

Fixpoint len (s : string) : nat :=
  match s with
  | EmptyString => O
  | String c s' => if is_continuation c then len s' else S (len s')
  end.

End PyStr.

(** ** Python [bytes] helpers *)

Module PyBytes.

Definition bytes : Type := list byte.

(** The bytes of an ASCII literal, [b"..."]. *)
Definition b (s : string) : bytes := list_byte_of_string s.

Definition CR : byte := x0d.
Definition LF : byte := x0a.

(** [s.startswith(p)] *)
Fixpoint startswith (p s : bytes) : bool :=
  match p, s with
  | [], _ => true
  | a :: p', c :: s' => Byte.eqb a c && startswith p' s'
  | _ :: _, [] => false
  end.

(** ASCII lower case of one byte, as [re.IGNORECASE] folds a bytes
    pattern. *)
Definition lower (c : byte) : byte :=
  match c with
  | x41 => x61 | x42 => x62 | x43 => x63 | x44 => x64 | x45 => x65
  | x46 => x66 | x47 => x67 | x48 => x68 | x49 => x69 | x4a => x6a
  | x4b => x6b | x4c => x6c | x4d => x6d | x4e => x6e | x4f => x6f
  | x50 => x70 | x51 => x71 | x52 => x72 | x53 => x73 | x54 => x74
  | x55 => x75 | x56 => x76 | x57 => x77 | x58 => x78 | x59 => x79
  | x5a => x7a
  | _ => c
  end.

(** [s] starts with [p], letters compared without case. *)
Fixpoint istartswith (p s : bytes) : bool :=
  match p, s with
  | [], _ => true
  | a :: p', c :: s' => Byte.eqb (lower a) (lower c) && istartswith p' s'
  | _ :: _, [] => false
  end.

(** [s.rfind(sep)]: where the last occurrence of [sep] starts. *)
Fixpoint rfind (sep s : bytes) : option nat :=
  match s with
  | [] => if startswith sep [] then Some O else None
  | _ :: s' =>
      match rfind sep s' with
      | Some i => Some (S i)
      | None => if startswith sep s then Some O else None
      end
  end.

(** [s.rpartition(sep)]: split at the last occurrence of [sep]; two empty
    parts and [s] itself when there is none. *)
Definition rpartition (sep s : bytes) : bytes * bytes * bytes :=
  match rfind sep s with
  | Some i => (firstn i s, sep, skipn (i + List.length sep) s)
  | None => ([], [], s)
  end.

(** [str(n).encode()]: the decimal digits of [n]. *)
Fixpoint digits (d : Decimal.uint) : bytes :=
  match d with
  | Decimal.Nil => []
  | Decimal.D0 d' => x30 :: digits d'
  | Decimal.D1 d' => x31 :: digits d'
  | Decimal.D2 d' => x32 :: digits d'
  | Decimal.D3 d' => x33 :: digits d'
  | Decimal.D4 d' => x34 :: digits d'
  | Decimal.D5 d' => x35 :: digits d'
  | Decimal.D6 d' => x36 :: digits d'
  | Decimal.D7 d' => x37 :: digits d'
  | Decimal.D8 d' => x38 :: digits d'
  | Decimal.D9 d' => x39 :: digits d'
  end.

Definition str_of_nat (n : nat) : bytes := digits (Nat.to_uint n).

(** [p in s]: [p] occurs in [s]; and the same without regard to case. *)
Fixpoint contains (p s : bytes) : bool :=
  startswith p s ||
  match s with
  | [] => false
  | _ :: s' => contains p s'
  end.

Fixpoint icontains (p s : bytes) : bool :=
  istartswith p s ||
  match s with
  | [] => false
  | _ :: s' => icontains p s'
  end.

(** Bytes that are not the letter c, in either case. *)
Definition not_c (x : byte) : Prop := lower x <> x63.

End PyBytes.

(** ** The grammar of [fenjing/const.py] as the rules use it *)

Module Grammar.

(** The two access kinds a chained step may carry: the tags [ATTRIBUTE]
    and [ITEM] standing first in a [(kind, name)] step. *)
Inductive access_kind : Type := KATTRIBUTE | KITEM.

(** Requirements and fragments share one tuple vocabulary in the source,
    so they share one type here. *)
Inductive target : Type :=
| LITERAL (s : string)
| STRING (s : string)
| INTEGER (n : Z)
| WHITESPACE
| UNSATISFIED
| FLASK_CONTEXT_VAR (name : string)
| ATTRIBUTE (obj : target) (name : string)
| ITEM (obj : target) (name : string)
| CHAINED_ATTRIBUTE_ITEM (obj : target) (steps : list (access_kind * string))
| FUNCTION_CALL (f : target) (args : list target)
| ENCLOSE_UNDER (prec : Z) (t : target)
| ONEOF (alts : list (list target))
| WRAP (ts : list target)
| EXPRESSION (prec : Z) (ts : list target).

(** The tuple [(req_type, obj_req, req_name)]. *)
Definition access (k : access_kind) (obj : target) (name : string) : target :=
  match k with
  | KATTRIBUTE => ATTRIBUTE obj name
  | KITEM => ITEM obj name
  end.

Definition is_unsatisfied (t : target) : bool :=
  match t with UNSATISFIED => true | _ => false end.

(** A value of the replacement dict handed to [targets_from_pattern]: one
    target tuple, or a list of them (as the entry for ["ANYTHING"] is). *)
Inductive repl_value : Type :=
| One (t : target)
| Many (ts : list target).

Definition repl_dict : Type := list (string * repl_value).

End Grammar.

(** ** [fenjing/rules/get_attritem.py] *)

Module Rules.
Import Grammar.

(** [re.match("[A-Za-z_]([A-Za-z0-9_]+)?", s)]: the character classes, the
    greedy run of the optional group, and the match itself, given as the
    length of the matched prefix ([None] when there is no match).
    [re.match] anchors at the start of the string only. *)
Definition in_range (lo hi : nat) (c : ascii) : bool :=
  ((lo <=? nat_of_ascii c) && (nat_of_ascii c <=? hi))%nat.

Definition is_name_start (c : ascii) : bool :=
  in_range 65 90 c || in_range 97 122 c || Ascii.eqb c "_"%char.

Definition is_name_char (c : ascii) : bool :=
  in_range 65 90 c || in_range 97 122 c || in_range 48 57 c
  || Ascii.eqb c "_"%char.

Fixpoint name_run (s : string) : nat :=
  match s with
  | String c s' => if is_name_char c then S (name_run s') else O
  | EmptyString => O
  end.

Definition re_match_name (s : string) : option nat :=
  match s with
  | String c s' => if is_name_start c then Some (S (name_run s')) else None
  | EmptyString => None
  end.

Section WithTables.

(** [payload_gen.precedence], a dict from construct name to level, and
    [rules_utils.targets_from_pattern] are imported by the module and
    defined elsewhere. *)
Variable precedence : string -> Z.
Variable targets_from_pattern : string -> repl_dict -> list target.

Definition gen_attribute_normal1 (obj_req : target) (attr_name : string)
  : list target :=
  if negb (bool_decide (is_Some (re_match_name attr_name))) then [UNSATISFIED]
  else
    let target_list :=
      [ ENCLOSE_UNDER (precedence "attribute") obj_req;
        LITERAL ".";
        LITERAL attr_name ] in
    [EXPRESSION (precedence "attribute") target_list].

Definition gen_attribute_normal2 (obj_req : target) (attr_name : string)
  : list target :=
  let target_list :=
    [ ENCLOSE_UNDER (precedence "attribute") obj_req;
      LITERAL "[";
      STRING attr_name;
      LITERAL "]" ] in
  [EXPRESSION (precedence "attribute") target_list].

Definition gen_attribute_attrfilter (obj_req : target) (attr_name : string)
  : list target :=
  let target_list :=
    [ ENCLOSE_UNDER (precedence "filter") obj_req;
      LITERAL "|attr";
      WRAP [STRING attr_name] ] in
  [EXPRESSION (precedence "filter") target_list].

Definition gen_attribute_attrfilter2 (obj_req : target) (attr_name : string)
  : list target :=
  let target_list :=
    [ ENCLOSE_UNDER (precedence "filter") obj_req;
      LITERAL "|attr(";
      WHITESPACE;
      STRING attr_name;
      WHITESPACE;
      LITERAL ",)" ] in
  [EXPRESSION (precedence "filter") target_list].

Definition gen_attribute_map (obj_req : target) (attr_name : string)
  : list target :=
  let target_list :=
    targets_from_pattern
      "( OBJ , ) | map( ATTR , NAME ) | first"
      [ ("OBJ", One obj_req);
        (" ", One WHITESPACE);
        ("ATTR", One (STRING "attr"));
        ("NAME", One (STRING attr_name)) ] in
  [EXPRESSION (precedence "filter_with_function_call") target_list].

Definition anything : list target :=
  [ ONEOF [ [LITERAL "x"]; [INTEGER 0]; [INTEGER 1] ] ].

Definition filter_that : target :=
  ONEOF [ [LITERAL "last"]; [LITERAL "first"] ].

Definition gen_attribute_map3 (obj_req : target) (attr_name : string)
  : list target :=
  if (4 <? PyStr.len attr_name)%nat then [UNSATISFIED]
  else
    let target_list :=
      targets_from_pattern
        "{ANYTHING:OBJ}|items|map(LAST)|map(*(ATTRNAME|batch(4)|map(JOIN)|list))|list|FILTER_THAT"
        [ ("ANYTHING", Many anything);
          ("OBJ", One obj_req);
          ("LAST", One (STRING "last"));
          ("FILTER_THAT", One filter_that);
          (" ", One WHITESPACE);
          ("4", One (INTEGER 4));
          ("ATTRNAME",
           One (ENCLOSE_UNDER (precedence "filter")
                  (STRING ("attr" ++ attr_name))));
          ("JOIN", One (STRING "join")) ] in
    [EXPRESSION (precedence "filter_with_function_call") target_list].

Definition gen_attribute_map4 (obj_req : target) (attr_name : string)
  : list target :=
  if (PyStr.len attr_name <? 4)%nat then [UNSATISFIED]
  else
    let target_list :=
      targets_from_pattern
        "{ANYTHING:OBJ}|items|map(LAST)|map(*(ATTRNAME|batch(NAMELENGTH)|map(JOIN)|list|reverse))|list|FILTER_THAT"
        [ ("ANYTHING", Many anything);
          ("OBJ", One obj_req);
          ("LAST", One (STRING "last"));
          ("FILTER_THAT", One filter_that);
          (" ", One WHITESPACE);
          ("4", One (INTEGER 4));
          ("ATTRNAME",
           One (ENCLOSE_UNDER (precedence "filter")
                  (STRING (attr_name ++ "attr"))));
          ("NAMELENGTH", One (INTEGER (Z.of_nat (PyStr.len attr_name))));
          ("JOIN", One (STRING "join")) ] in
    [EXPRESSION (precedence "filter_with_function_call") target_list].

Definition gen_item_normal1 (obj_req : target) (item_name : string)
  : list target :=
  if negb (bool_decide (is_Some (re_match_name item_name))) then [UNSATISFIED]
  else
    let target_list :=
      [ ENCLOSE_UNDER (precedence "item") obj_req;
        LITERAL ".";
        LITERAL item_name ] in
    [EXPRESSION (precedence "item") target_list].

Definition gen_item_normal2 (obj_req : target) (item_name : string)
  : list target :=
  let target_list :=
    [ ENCLOSE_UNDER (precedence "item") obj_req;
      LITERAL "[";
      STRING item_name;
      LITERAL "]" ] in
  [EXPRESSION (precedence "item") target_list].

Definition gen_item_getfunc (obj_req : target) (item_name : string)
  : list target :=
  let target :=
    FUNCTION_CALL (ATTRIBUTE obj_req "get") [STRING item_name] in
  [EXPRESSION (precedence "filter_with_function_call") [target]].

Definition gen_item_getfunc2 (obj_req : target) (item_name : string)
  : list target :=
  let target_head :=
    [ ENCLOSE_UNDER (precedence "function_call") (ATTRIBUTE obj_req "get");
      LITERAL "(";
      WHITESPACE;
      STRING item_name;
      WHITESPACE ] in
  let target :=
    ONEOF [ target_head ++ [LITERAL ")"]; target_head ++ [LITERAL ",)"] ] in
  [EXPRESSION (precedence "function_call") [target]].

Definition gen_item_dunderfunc (obj_req : target) (item_name : string)
  : list target :=
  let target :=
    FUNCTION_CALL (ATTRIBUTE obj_req "__getitem__") [STRING item_name] in
  [EXPRESSION (precedence "filter_with_function_call") [target]].

Definition gen_item_dunderfunc2 (obj_req : target) (item_name : string)
  : list target :=
  let target_head :=
    [ ENCLOSE_UNDER (precedence "function_call")
        (ATTRIBUTE obj_req "__getitem__");
      LITERAL "(";
      WHITESPACE;
      STRING item_name;
      WHITESPACE ] in
  let target :=
    ONEOF [ target_head ++ [LITERAL ")"]; target_head ++ [LITERAL ",)"] ] in
  [EXPRESSION (precedence "function_call") [target]].

Definition gen_class_attribute_literal (obj_req : target) (attr_name : string)
  : list target :=
  let class_target := ATTRIBUTE obj_req "__class__" in
  let target_list :=
    [ ENCLOSE_UNDER (precedence "attribute") class_target;
      LITERAL ("." ++ attr_name) ] in
  [EXPRESSION (precedence "attribute") target_list].

Definition gen_class_attribute_attrfilter (obj_req : target) (attr_name : string)
  : list target :=
  let class_target := ATTRIBUTE obj_req "__class__" in
  let target_list :=
    [ ENCLOSE_UNDER (precedence "filter") class_target;
      LITERAL "|attr";
      WRAP [STRING attr_name] ] in
  [EXPRESSION (precedence "filter") target_list].

Definition gen_class_attribute_attrfilter2 (obj_req : target) (attr_name : string)
  : list target :=
  let class_target := ATTRIBUTE obj_req "__class__" in
  let target_list :=
    [ ENCLOSE_UNDER (precedence "filter") class_target;
      LITERAL "|attr(";
      STRING attr_name;
      LITERAL ",)" ] in
  [EXPRESSION (precedence "filter") target_list].

(** The rules that put the object (or an attribute of it) under
    [ENCLOSE_UNDER] at their own precedence level, with the name of that
    level in the precedence table. *)
Definition object_enclosing_rules
  : list (string * (target -> string -> list target)) :=
  [ ("attribute", gen_attribute_normal1);
    ("attribute", gen_attribute_normal2);
    ("filter", gen_attribute_attrfilter);
    ("filter", gen_attribute_attrfilter2);
    ("item", gen_item_normal1);
    ("item", gen_item_normal2);
    ("function_call", gen_item_getfunc2);
    ("function_call", gen_item_dunderfunc2);
    ("attribute", gen_class_attribute_literal);
    ("filter", gen_class_attribute_attrfilter);
    ("filter", gen_class_attribute_attrfilter2) ].

End WithTables.

(** [gen_chained_attribute_item_normal(context, obj_req, *attr_item_req)] *)
Definition gen_chained_attribute_item_normal
    (obj_req : target) (attr_item_req : list (access_kind * string))
  : list target :=
  match attr_item_req with
  | [] => [obj_req]
  | (req_type, req_name) :: other_req =>
      let got_req := access req_type obj_req req_name in
      [CHAINED_ATTRIBUTE_ITEM got_req other_req]
  end.

(** One step of the left fold: the access [(kind, acc, name)]. *)
Definition step (acc : target) (kn : access_kind * string) : target :=
  access (fst kn) acc (snd kn).

Definition is_chained (t : target) : bool :=
  match t with CHAINED_ATTRIBUTE_ITEM _ _ => true | _ => false end.

(** Resolving a chained requirement hands it to the rule again, as long as
    the single candidate it gets back is still a chained requirement. *)
Fixpoint unfold_chained (fuel : nat) (req : target) : target :=
  match fuel, req with
  | S fuel', CHAINED_ATTRIBUTE_ITEM obj steps =>
      match gen_chained_attribute_item_normal obj steps with
      | [cand] => unfold_chained fuel' cand
      | _ => req
      end
  | _, _ => req
  end.

End Rules.

(** ** The helpers and the renderer the rules are written against *)

Module Resolver.
Import Grammar.

(** Modelled from the spec: explicit grouping syntax of the template
    language, put around a rendered sub-expression. *)
Definition group (s : string) : string := "(" ++ s ++ ")".

(** Modelled from the spec: the Enclose-If-Needed step of the Resolver
    ([payload_gen], not among the sources): "compare the embedded
    candidate's precedence against the required precedence; wrap in
    explicit grouping syntax only if lower". *)
Definition enclose_under (required : Z) (sub_prec : Z) (sub_text : string)
  : string :=
  if (sub_prec <? required)%Z then group sub_text else sub_text.

Section Render.

(** The recursive resolution of an embedded requirement (rule registry,
    memo table, oracle): the precedence and text of the candidate that
    was accepted for it, or failure. *)
Variable resolve : target -> option (Z * string).
(** The rendering chosen for a Whitespace-Marker, and the delimiter
    convention of Wrapped-Arguments. *)
Variable whitespace : string.
Variable wrap : string -> string.

(** Modelled from the spec: rendering of one fragment, section 4.2 step 3
    of the spec ([payload_gen] is not among the sources).  Literal-Text
    is emitted as it is (no blocklist), an Embedded-Requirement is
    resolved and fails the candidate when it fails, Enclose-If-Needed
    goes through [enclose_under], Ordered-Alternatives uses the first
    inner list that renders. *)
Fixpoint render (t : target) : option string :=
  let seq :=
    fix seq (ts : list target) : option string :=
      match ts with
      | [] => Some EmptyString
      | t' :: ts' =>
          match render t', seq ts' with
          | Some a, Some b => Some (a +:+ b)
          | _, _ => None
          end
      end in
  match t with
  | LITERAL s => Some s
  | WHITESPACE => Some whitespace
  | UNSATISFIED => None
  | ENCLOSE_UNDER required sub =>
      match resolve sub with
      | Some (p, s) => Some (enclose_under required p s)
      | None => None
      end
  | ONEOF alts =>
      (fix first (alts : list (list target)) : option string :=
         match alts with
         | [] => None
         | alt :: alts' =>
             match seq alt with
             | Some s => Some s
             | None => first alts'
             end
         end) alts
  | WRAP ts => option_map wrap (seq ts)
  | EXPRESSION _ ts => seq ts
  | STRING _ | INTEGER _ | FLASK_CONTEXT_VAR _ | ATTRIBUTE _ _ | ITEM _ _
  | CHAINED_ATTRIBUTE_ITEM _ _ | FUNCTION_CALL _ _ =>
      option_map snd (resolve t)
  end.

(** The Enclose-If-Needed fragments a candidate carries, through its
    fragment list and its alternatives. *)
Fixpoint enclosures (t : target) : list (Z * target) :=
  let many :=
    fix many (ts : list target) : list (Z * target) :=
      match ts with
      | [] => []
      | t' :: ts' => enclosures t' ++ many ts'
      end in
  match t with
  | ENCLOSE_UNDER required sub => [(required, sub)]
  | ONEOF alts =>
      (fix all (alts : list (list target)) : list (Z * target) :=
         match alts with
         | [] => []
         | alt :: alts' => many alt ++ all alts'
         end) alts
  | WRAP ts => many ts
  | EXPRESSION _ ts => many ts
  | _ => []
  end.

End Render.

End Resolver.

(** ** Effects: exceptions, and a trace of what the code does to the world *)

Module Py.

Inductive exn : Type :=
| KeyError (key : string)
| IndexError
| AssertionError
| NotImplementedError
| ValueError (message : string).

Inductive outcome (A : Type) : Type :=
| Returned (a : A)
| Raised (e : exn).
Arguments Returned {A} a.
Arguments Raised {A} e.

(** A computation over a state [S] that returns or raises. *)
Definition M (S A : Type) : Type := S -> outcome A * S.

Definition ret {S A} (a : A) : M S A := fun s => (Returned a, s).

Definition raise {S A} (e : exn) : M S A := fun s => (Raised e, s).

Definition bind {S A B} (m : M S A) (k : A -> M S B) : M S B :=
  fun s =>
    match m s with
    | (Returned a, s') => k a s'
    | (Raised e, s') => (Raised e, s')
    end.

Declare Scope py_scope.
Delimit Scope py_scope with py.
Notation "x <- m ;; k" := (bind m (fun x => k))
  (at level 100, m at next level, right associativity) : py_scope.
Notation "m ;;; k" := (bind m (fun _ => k))
  (at level 100, right associativity) : py_scope.

Definition outcome_map {A B} (f : A -> B) (r : outcome A) : outcome B :=
  match r with
  | Returned a => Returned (f a)
  | Raised e => Raised e
  end.

(** [if cond: body] with no [else]. *)
Definition when {S} (cond : bool) (body : M S unit) : M S unit :=
  if cond then body else ret tt.

(** [[f(x) for x in xs]] *)
Fixpoint for_each {S A B} (f : A -> M S B) (xs : list A) : M S (list B) :=
  match xs with
  | [] => ret []
  | x :: xs' =>
      bind (f x) (fun y => bind (for_each f xs') (fun ys => ret (y :: ys)))
  end.

(** *** What is observable *)

Record HTTPResponse : Type := mkHTTPResponse {
  status_code : Z;
  text : string
}.

(** The keyword arguments of [requester.request]. *)
Record Request : Type := mkRequest {
  method : string;
  url : string;
  params : gmap string string;
  data : gmap string string
}.

(** [form.py] is not among the sources; a form has the names of its
    input fields, iterated in some order. *)
Record Form : Type := mkForm {
  action : string;
  form_method : string;
  inputs : list string
}.

Inductive level : Type := DEBUG | INFO | WARNING | ERROR.

(** The dict handed to a submitter's callback with [CALLBACK_SUBMIT]. *)
Inductive submit_info : Type :=
| FormSubmitted (form : Form) (inputs : gmap string string)
    (response : option HTTPResponse)
| PathSubmitted (url payload : string) (response : option HTTPResponse).

Inductive event : Type :=
| Logged (logger : string) (lv : level) (message : string)
| Requested (r : Request)
| CalledBack (info : submit_info)
| Spawned (shell_cmd input : string)
| Drew (index : nat).

Definition Trace : Type := list event.

Definition emit (e : event) : M Trace unit :=
  fun tr => (Returned tt, tr ++ [e]).

(** [logger.debug/info/warning(message, ...)]; the arguments interpolated
    into the message are left out of the trace. *)
Definition log (logger : string) (lv : level) (message : string)
  : M Trace unit :=
  emit (Logged logger lv message).

(** An [HTTPRequester]: what the target answers to a request, given all
    that happened before; [None] when the request fails. *)
Definition HTTPRequester : Type := Trace -> Request -> option HTTPResponse.

Definition request (req : HTTPRequester) (r : Request)
  : M Trace (option HTTPResponse) :=
  fun tr => (Returned (req tr r), tr ++ [Requested r]).

(** The requests of a trace, oldest first. *)
Definition requests (tr : Trace) : list Request :=
  flat_map (fun e => match e with Requested r => [r] | _ => [] end) tr.

(** What the modelled code takes from the Python library, from the
    operating system and from modules that are not among the sources. *)
Class Outside : Type := {
  (** [html.unescape], [urllib.parse.quote], [repr] and [strip] of a
      [str], [pprint.pformat] of a list of strings *)
  html_unescape : string -> string;
  quote : string -> string;
  repr : string -> string;
  strip : string -> string;
  pformat : list string -> string;
  (** exit code and output of [subprocess.Popen(shell_cmd, shell=True)]
      fed with the input *)
  popen : Trace -> string -> string -> Z * string;
  (** the index [random.choices] draws from a population of the given
      size *)
  random_index : Trace -> nat -> nat;
  (** [form.fill_form(url, form, inputs, extra_params=...)] *)
  fill_form :
    string -> Form -> gmap string string -> gmap string string -> Request;
  (** [const.GETFLAG_CODE_EVAL] *)
  GETFLAG_CODE_EVAL : string;
  (** [cli.parse_getflag_info]: two regular expressions and a base64
      decoding over the page *)
  parse_getflag_info : string -> M Trace (option (list string))
}.

End Py.

(** ** [fenjing/submitter.py] *)

Module Submitter.
Import PyBytes Py.
Local Open Scope py_scope.

(** *** [update_content_length] *)

Definition GET : bytes := Eval cbv in b "GET".
Definition HEAD : bytes := Eval cbv in b "HEAD".
Definition CRLF : bytes := [CR; LF].
Definition CRLFCRLF : bytes := [CR; LF; CR; LF].
Definition content_length_name : bytes := Eval cbv in b "Content-Length:".
Definition content_length_prefix : bytes := Eval cbv in b "Content-Length: ".

(** The pattern [b"Content-Length:.*"] under [re.IGNORECASE]: the literal
    part without regard to case, then [.*], the longest run of bytes other
    than a line feed.  [match_content_length s] is the length of the match
    that starts at the head of [s], if there is one. *)
Fixpoint dot_star (s : bytes) : nat :=
  match s with
  | c :: s' => if Byte.eqb c LF then O else S (dot_star s')
  | [] => O
  end.

Definition match_content_length (s : bytes) : option nat :=
  if istartswith content_length_name s
  then Some (List.length content_length_name
             + dot_star (skipn (List.length content_length_name) s))
  else None.

(** [re.subn(b"Content-Length:.*", repl, s, 0, re.IGNORECASE)]: every
    match, leftmost first and not overlapping, is replaced by [repl];
    the result and the number of replacements.  [skip] counts the bytes
    of the current match still to be passed over. *)
Fixpoint subn_go (repl : bytes) (skip : nat) (s : bytes) : bytes * nat :=
  match s with
  | [] => ([], O)
  | c :: rest =>
      match skip with
      | S skip' => subn_go repl skip' rest
      | O =>
          match match_content_length s with
          | Some n =>
              let '(r, count) := subn_go repl (n - 1) rest in
              (repl ++ r, S count)
          | None =>
              let '(r, count) := subn_go repl 0 rest in
              (c :: r, count)
          end
      end
  end.

Definition re_subn_content_length (repl s : bytes) : bytes * nat :=
  subn_go repl 0 s.

Definition update_content_length (request : bytes) : bytes :=
  if startswith GET request || startswith HEAD request then request
  else
    let '(header, _, body) := rpartition CRLFCRLF request in
    if (List.length header =? 0)%nat then request
    else
      let content_length := List.length body in
      let content_length_header :=
        content_length_prefix ++ str_of_nat content_length in
      let '(result, replace_count) :=
        re_subn_content_length content_length_header header in
      let result :=
        if (replace_count =? 0)%nat
        then result ++ CRLF ++ content_length_header
        else result in
      result ++ CRLFCRLF ++ body.

(** *** [shell_tamperer], [BaseSubmitter] *)

Definition Tamperer : Type := string -> M Trace string.

Section WithOutside.
Context `{Outside}.

(** The subprocess: the payload goes to its standard input, its exit
    code and standard output come back. *)
Definition run_shell (shell_cmd input : string) : M Trace (Z * string) :=
  fun tr =>
    (Returned (popen tr shell_cmd input), tr ++ [Spawned shell_cmd input]).

(** The inner [tamperer] of [shell_tamperer]; the [ValueError] carries the
    fixed part of its message, without the exit code and the payload
    interpolated into it. *)
Definition shell_tamperer (shell_cmd : string) : Tamperer :=
  fun payload =>
ran <- run_shell shell_cmd payload ;;
    let '(code, out) := ran in
    if negb (code =? 0)%Z
    then raise (ValueError "Shell command return non-zero code")
    else
      when (PyStr.endswith (String "010"%char EmptyString) out)
        (log "submitter" INFO
           "Tamperer [blue]%s[/] output [blue]%s[/] ends with '\n', it may cause some issues.") ;;;
      ret out.

(** A submitter object: the fields of [BaseSubmitter], the
    [extra_params] dict of the classes that have one, whether the class
    derives from [ExtraParamAndDataCustomizable], and the [submit_raw]
    of its class, which reads the dict. *)
Record BaseSubmitter : Type := mkSubmitter {
  tamperers : list Tamperer;
  customizable : bool;
  extra_params : gmap string string;
  raw : gmap string string -> string -> M Trace (option HTTPResponse)
}.

(** [BaseSubmitter.__init__] and [BaseSubmitter.submit_raw]. *)
Definition BaseSubmitter_init : BaseSubmitter :=
  {| tamperers := [];
     customizable := false;
     extra_params := ∅;
     raw := fun _ _ => raise NotImplementedError |}.

Definition add_tamperer (tamperer : Tamperer) (self : BaseSubmitter)
  : BaseSubmitter :=
  {| tamperers := tamperers self ++ [tamperer];
     customizable := customizable self;
     extra_params := extra_params self;
     raw := raw self |}.

Definition submit_raw (self : BaseSubmitter) (raw_payload : string)
  : M Trace (option HTTPResponse) :=
  raw self (extra_params self) raw_payload.

(** [for tamperer in self.tamperers: payload = tamperer(payload)] *)
Fixpoint apply_tamperers (ts : list Tamperer) (payload : string)
  : M Trace string :=
  match ts with
  | [] => ret payload
  | tamperer :: ts' =>
      payload' <- tamperer payload ;; apply_tamperers ts' payload'
  end.

Definition submit (self : BaseSubmitter) (payload : string)
  : M Trace (option HTTPResponse) :=
  payload <-
    match tamperers self with
    | [] => ret payload
    | _ :: _ =>
        log "submitter" DEBUG "Applying tampers..." ;;;
        apply_tamperers (tamperers self) payload
    end ;;
  log "submitter" DEBUG "Submit [blue]%s[/]" ;;;
  resp <- submit_raw self payload ;;
  match resp with
  | None => ret None
  | Some resp =>
      ret (Some (mkHTTPResponse (status_code resp)
                   (html_unescape (text resp))))
  end.

Definition set_extra_param (k v : string) (self : BaseSubmitter)
  : BaseSubmitter :=
  {| tamperers := tamperers self;
     customizable := customizable self;
     extra_params := <[k := v]> (extra_params self);
     raw := raw self |}.

(** [del self.extra_params[k]] raises [KeyError] on a missing key. *)
Definition unset_extra_param (k : string) (self : BaseSubmitter)
  : outcome BaseSubmitter :=
  match extra_params self !! k with
  | Some _ =>
      Returned {| tamperers := tamperers self;
                  customizable := customizable self;
                  extra_params := delete k (extra_params self);
                  raw := raw self |}
  | None => Raised (KeyError k)
  end.

(** *** [FormSubmitter] *)

Definition FormSubmitter_submit_raw (url : string) (form : Form)
    (target_field : string) (req : HTTPRequester)
    (extra : gmap string string) (raw_payload : string)
  : M Trace (option HTTPResponse) :=
  let inputs : gmap string string := {[ target_field := raw_payload ]} in
  resp <- request req (fill_form url form inputs extra) ;;
  emit (CalledBack (FormSubmitted form inputs resp)) ;;;
  match resp with
  | None => ret None
  | Some resp => ret (Some (mkHTTPResponse (status_code resp) (text resp)))
  end.

Definition FormSubmitter (url : string) (form : Form)
    (target_field : string) (requester : HTTPRequester)
    (tampers : list Tamperer) : BaseSubmitter :=
  fold_left (fun self t => add_tamperer t self) tampers
    {| tamperers := [];
       customizable := true;
       extra_params := ∅;
       raw := FormSubmitter_submit_raw url form target_field requester |}.

(** *** [PathSubmitter] *)

Definition PathSubmitter_submit_raw (url : string) (req : HTTPRequester)
    (extra : gmap string string) (raw_payload : string)
  : M Trace (option HTTPResponse) :=
  if existsb (fun w => PyStr.contains w raw_payload) ["/"; ".."; " "; "%"]
  then
    log "submitter" INFO
      "Don't submit [yellow]%s[/] because it can't be in the path." ;;;
    ret None
  else
    resp <- request req
              {| method := "GET";
                 url := url +:+ quote raw_payload;
                 params := extra;
                 data := ∅ |} ;;
    emit (CalledBack (PathSubmitted url raw_payload resp)) ;;;
    match resp with
    | None => ret None
    | Some resp =>
        ret (Some (mkHTTPResponse (status_code resp) (text resp)))
    end.

(** [PathSubmitter.__init__]: the stored URL ends with a slash. *)
Definition PathSubmitter (url : string) (requester : HTTPRequester)
    (tampers : list Tamperer) : M Trace BaseSubmitter :=
  url <-
    (if negb (PyStr.endswith "/" url)
     then
       log "submitter" WARNING
         "PathSubmitter get a url that's not ends with '/', appending it." ;;;
       ret (url +:+ "/")
     else ret url) ;;
  ret (fold_left (fun self t => add_tamperer t self) tampers
         {| tamperers := [];
            customizable := true;
            extra_params := ∅;
            raw := PathSubmitter_submit_raw url requester |}).

(** The response [submit] hands back for a response of [submit_raw]. *)
Definition unescaped (resp : HTTPResponse) : HTTPResponse :=
  mkHTTPResponse (status_code resp) (html_unescape (text resp)).

(** Tamperers chained in the order of the list, each taking the output
    of the one before. *)
Definition chain (ts : list Tamperer) (payload : string)
  : M Trace string :=
  fold_left (fun acc t => bind acc t) ts (ret payload).

(** A submitter on which the tamperers were registered one by one. *)
Definition with_tamperers (ts : list Tamperer) (self : BaseSubmitter)
  : BaseSubmitter :=
  fold_left (fun self t => add_tamperer t self) ts self.

(** The words [PathSubmitter] refuses to put in a path. *)
Definition blocked_in_path (payload : string) : bool :=
  existsb (fun w => PyStr.contains w payload) ["/"; ".."; " "; "%"].

Definition with_slash (url : string) : string :=
  if PyStr.endswith "/" url then url else url +:+ "/".

End WithOutside.

(** The header line the function writes for a body of [n] bytes. *)
Definition content_length_line (n : nat) : bytes :=
  content_length_prefix ++ str_of_nat n.

(** What is left of a line after the header value: nothing, or a line
    feed and more. *)
Definition ends_line (rest : bytes) : Prop :=
  rest = [] \/ exists r, rest = LF :: r.

(** Wherever [Content-Length:] occurs in [header], in whatever case, the
    line reads [Content-Length: n] from there to its end. *)
Definition names_length (header : bytes) (n : nat) : Prop :=
  forall i,
    istartswith content_length_name (skipn i header) = true ->
    exists rest,
      skipn i header = content_length_line n ++ rest /\ ends_line rest.

(** Position [i] of [header] starts a line: it is the head of the header
    or comes right after a line feed. *)
Definition starts_line (header : bytes) (i : nat) : Prop :=
  match i with
  | O => True
  | S j => nth_error header j = Some LF
  end.

(** A Content-Length header at position [i]: a line that starts with the
    name, in whatever case. *)
Definition content_length_header_at (header : bytes) (i : nat) : Prop :=
  starts_line header i
  /\ istartswith content_length_name (skipn i header) = true.

Definition has_content_length_header (header : bytes) : Prop :=
  exists i, content_length_header_at header i.

(** What comes after a header value: the end of the header or a line
    break, with or without its carriage return. *)
Definition value_ends (rest : bytes) : Prop :=
  rest = []
  \/ (exists r, rest = LF :: r)
  \/ (exists r, rest = CR :: LF :: r).

(** Every Content-Length header of [header] reads [Content-Length: n]. *)
Definition header_value_is (header : bytes) (n : nat) : Prop :=
  forall i,
    content_length_header_at header i ->
    exists rest,
      skipn i header = content_length_line n ++ rest /\ value_ends rest.

End Submitter.

(** ** [fenjing/cli.py] *)

Module Cli.
Import Grammar Py Submitter.
Local Open Scope py_scope.

(** The goals handed to [generate], and its arguments. *)
Inductive gen_type : Type := CONFIG | EVAL | OS_POPEN_READ.

Inductive gen_arg : Type :=
| Req (t : target)
| Str (s : string).

(** [full_payload_gen_like.generate(gen_type, *args)]: a payload or
    [None], and whether the payload will print its result. *)
Definition generator : Type :=
  gen_type -> list gen_arg -> option string * option bool.

Section WithOutside.
Context `{Outside}.

(** The submitter object, which [do_submit_cmdexec] changes in place,
    and the trace. *)
Record Session : Type := mkSession {
  submitter : BaseSubmitter;
  trace : Trace
}.

Definition on_trace {A} (m : M Trace A) : M Session A :=
  fun st =>
    let '(r, tr) := m (trace st) in
    (r, mkSession (submitter st) tr).

Definition the_submitter : M Session BaseSubmitter :=
  fun st => (Returned (submitter st), st).

Definition do_set_extra_param (k v : string) : M Session unit :=
  fun st =>
    (Returned tt, mkSession (set_extra_param k v (submitter st)) (trace st)).

Definition do_unset_extra_param (k : string) : M Session unit :=
  fun st =>
    match unset_extra_param k (submitter st) with
    | Returned self => (Returned tt, mkSession self (trace st))
    | Raised e => (Raised e, st)
    end.

(** Truth of [will_print], which may be [None]. *)
Definition truthy (b : option bool) : bool :=
  match b with Some true => true | _ => false end.

(** The first half of [do_submit_cmdexec], up to the comment that opens
    the second: either the function has returned (left), or [payload],
    [will_print] and [is_getflag_requested] are set (right). *)
Definition parse_command (cmd : string) (generate : generator)
  : M Session (string + (option string * option bool * bool)) :=
  match cmd with
  | EmptyString => raise IndexError
  | String first cmd' =>
      if Ascii.eqb first "@" then
        let cmd := cmd' in
        if PyStr.startswith "get-config" cmd then
          ret (inr (generate CONFIG [], false))
        else if PyStr.startswith "findflag" cmd then
          self <- the_submitter ;;
          if negb (customizable self) then
            on_trace (log "cli" WARNING
                        "@findflag is [red bold]not supported[/] for this") ;;;
            ret (inl "")
          else
            do_set_extra_param "eval_this" GETFLAG_CODE_EVAL ;;;
            ret (inr (generate EVAL
                        [Req (ITEM (ATTRIBUTE (FLASK_CONTEXT_VAR "request")
                                      "values")
                                "eval_this")],
                      true))
        else if PyStr.startswith "eval" cmd then
          ret (inr (generate EVAL
                      [Req (STRING (strip (PyStr.drop 4 cmd)))], false))
        else if PyStr.startswith "ls" cmd then
          let cmd := strip cmd in
          if (PyStr.len cmd =? 2)%nat then
            ret (inr (generate EVAL
                        [Req (STRING "__import__('os').listdir()")], false))
          else
            ret (inr (generate EVAL
                        [Req (STRING ("__import__('os').listdir("
                                      +:+ repr (strip (PyStr.drop 2 cmd))
                                      +:+ ")"))],
                      false))
        else if PyStr.startswith "cat" cmd then
          let filepath := strip (PyStr.drop 3 cmd) in
          ret (inr (generate EVAL
                      [Req (STRING ("open(" +:+ repr filepath
                                    +:+ ", 'r').read()"))],
                    false))
        else if PyStr.startswith "exec" cmd then
          let statements := strip (PyStr.drop 4 cmd) in
          ret (inr (generate EVAL
                      [Req (STRING ("exec(" +:+ repr statements +:+ ")"))],
                    false))
        else
          on_trace (log "cli" INFO "Please check your command") ;;;
          ret (inl "")
      else
        ret (inr (generate OS_POPEN_READ [Str cmd], false))
  end.

Definition do_submit_cmdexec (cmd : string) (generate : generator)
  : M Session string :=
  parsed <- parse_command cmd generate ;;
  match parsed with
  | inl result => ret result
  | inr (payload, will_print, is_getflag_requested) =>
      match payload with
      | None =>
          on_trace (log "cli" WARNING "[red]Failed[/] generating payload.") ;;;
          self <- the_submitter ;;
          when (customizable self) (do_unset_extra_param "eval_this") ;;;
          ret ""
      | Some payload =>
          on_trace (log "cli" INFO "Submit payload [blue]%s[/]") ;;;
          when (negb (truthy will_print))
            (on_trace
               (log "cli" WARNING
                  "Payload generator says that this payload [red]won't print[/] command execution result.")) ;;;
          self <- the_submitter ;;
          result <- on_trace (submit self payload) ;;
          match result with
          | None => raise AssertionError
          | Some result =>
              if is_getflag_requested then
                flag_data <- on_trace (parse_getflag_info (text result)) ;;
                self <- the_submitter ;;
                when (customizable self)
                  (do_unset_extra_param "eval_this") ;;;
                match flag_data with
                | Some (flag :: flags) =>
                    ret (strip (pformat (flag :: flags)))
                | _ => ret "GETFLAG_FAILED"
                end
              else ret (text result)
          end
      end
  end.

(** A generator that finds no payload, and the warning logged for it. *)
Definition no_payload : generator := fun _ _ => (None, None).

Definition failed_warning : event :=
  Logged "cli" WARNING "[red]Failed[/] generating payload.".

(** *** [is_form_has_response] *)

Definition ascii_lowercase : list ascii :=
  list_ascii_of_string "abcdefghijklmnopqrstuvwxyz".

(** One draw of [random.choices(population, k=...)]. *)
Definition choice (population : list ascii) : M Trace ascii :=
  fun tr =>
    let i := (random_index tr (List.length population)
              mod List.length population)%nat in
    (Returned (nth i population "a"%char), tr ++ [Drew i]).

(** [random.choices(population, k=k)] *)
Fixpoint choices (population : list ascii) (k : nat)
  : M Trace (list ascii) :=
  match k with
  | O => ret []
  | S k' =>
      c <- choice population ;;
      cs <- choices population k' ;;
      ret (c :: cs)
  end.

Definition control_patterns : list string := ["{{"; "{%"; "{#"].

(** [tamper_cmd] is a string or [None]; it is used when it is a
    non-empty string. *)
Definition tamperers_of (tamper_cmd : option string) : list Tamperer :=
  match tamper_cmd with
  | Some (String c cmd) => [shell_tamperer (String c cmd)]
  | _ => []
  end.

(** The probes of one input field: the marker, the answer to the marker
    and the answers to the three control patterns followed by the
    marker. *)
Definition probe_field (url : string) (form : Form)
    (requester : HTTPRequester) (tamper_cmd : option string)
    (input_field : string)
  : M Trace (string * option HTTPResponse * list (option HTTPResponse)) :=
  let submitter :=
    fold_left (fun self t => add_tamperer t self) (tamperers_of tamper_cmd)
      (FormSubmitter url form input_field requester []) in
  letters <- choices ascii_lowercase 4 ;;
  let marker := string_of_list_ascii letters in
  result1 <- submit submitter marker ;;
  musterror_result <-
    for_each (fun pattern => submit submitter (pattern +:+ marker))
      control_patterns ;;
  ret (marker, result1, musterror_result).

(** The condition of the [if] in the loop. *)
Definition responds (marker : string) (result1 : option HTTPResponse)
    (musterror_result : list (option HTTPResponse)) : bool :=
  match result1 with
  | None => false
  | Some result1 =>
      PyStr.contains marker (text result1)
      && existsb
           (fun result =>
              match result with
              | Some result => negb (PyStr.contains marker (text result))
              | None => false
              end)
           musterror_result
  end.

(** [for input_field in form["inputs"]: ...; return False] *)
Fixpoint probe_fields (url : string) (form : Form)
    (requester : HTTPRequester) (tamper_cmd : option string)
    (fields : list string) : M Trace bool :=
  match fields with
  | [] => ret false
  | input_field :: fields' =>
      probed <- probe_field url form requester tamper_cmd input_field ;;
      let '(marker, result1, musterror_result) := probed in
      if responds marker result1 musterror_result then ret true
      else probe_fields url form requester tamper_cmd fields'
  end.

Definition is_form_has_response (url : string) (form : Form)
    (requester : HTTPRequester) (tamper_cmd : option string)
  : M Trace bool :=
  when (PyStr.contains "127.0.0.1" url || PyStr.contains "localhost" url)
    (log "cli" INFO
       "Try out our new feature [cyan bold]crack-keywords[/] with ...") ;;;
  probe_fields url form requester tamper_cmd (inputs form).

(** The trace once the given fields have been probed, one after the
    other. *)
Definition after_probing (url : string) (form : Form)
    (requester : HTTPRequester) (tamper_cmd : option string)
    (fields : list string) (tr : Trace) : Trace :=
  fold_left
    (fun tr input_field =>
       snd (probe_field url form requester tamper_cmd input_field tr))
    fields tr.

(** The submitter [is_form_has_response] builds for a field. *)
Definition field_submitter (url : string) (form : Form)
    (requester : HTTPRequester) (tamper_cmd : option string)
    (input_field : string) : BaseSubmitter :=
  fold_left (fun self t => add_tamperer t self) (tamperers_of tamper_cmd)
    (FormSubmitter url form input_field requester []).

(** Four lower-case letters. *)
Definition is_marker (marker : string) : Prop :=
  String.length marker = 4%nat
  /\ Forall (fun c => In c ascii_lowercase) (list_ascii_of_string marker).

End WithOutside.

End Cli.

(** ** All the rules of [get_attritem.py] that take an object and a name *)

Module RuleIndex.
Import Grammar Rules.

Section WithTables.
Variable precedence : string -> Z.
Variable targets_from_pattern : string -> repl_dict -> list target.

(** The functions decorated with [expression_gen] whose arguments are
    [(context, obj_req, name)], in the order of the file. *)
Definition named_rules : list (target -> string -> list target) :=
  [ gen_attribute_normal1 precedence;
    gen_attribute_normal2 precedence;
    gen_attribute_attrfilter precedence;
    gen_attribute_attrfilter2 precedence;
    gen_attribute_map precedence targets_from_pattern;
    gen_attribute_map3 precedence targets_from_pattern;
    gen_attribute_map4 precedence targets_from_pattern;
    gen_item_normal1 precedence;
    gen_item_normal2 precedence;
    gen_item_getfunc precedence;
    gen_item_getfunc2 precedence;
    gen_item_dunderfunc precedence;
    gen_item_dunderfunc2 precedence;
    gen_class_attribute_literal precedence;
    gen_class_attribute_attrfilter precedence;
    gen_class_attribute_attrfilter2 precedence ].

(** The names under which the rules look levels up in the table. *)
Definition level_names : list string :=
  ["attribute"; "item"; "filter"; "function_call"; "filter_with_function_call"].

End WithTables.

End RuleIndex.

(** ** [fenjing/submitter.py]: [RequestSubmitter] and [TCPSubmitter] *)

Module SubmitterMore.
Import PyBytes Py Submitter.
Local Open Scope py_scope.

(** [s.replace(old, new)] on bytes: every occurrence of [old], leftmost
    first and not overlapping, becomes [new]; with an empty [old], [new] is
    put before every byte and at the end.  [skip] counts the bytes of the
    current occurrence still to be passed over. *)
Fixpoint replace_go (old new : bytes) (skip : nat) (s : bytes) : bytes :=
  match s with
  | [] => []
  | c :: rest =>
      match skip with
      | S skip' => replace_go old new skip' rest
      | O =>
          if startswith old s
          then new ++ replace_go old new (List.length old - 1) rest
          else c :: replace_go old new 0 rest
      end
  end.

Definition replace (old new s : bytes) : bytes :=
  match old with
  | [] => new ++ flat_map (fun c => c :: new) s
  | _ :: _ => replace_go old new 0 s
  end.

(** Bytes other than the line feed. *)
Definition not_lf (x : byte) : Prop := x <> LF.

(** [s.encode()]: a [str] is kept as its UTF-8 bytes, so encoding reads
    them off. *)
Definition encode (s : string) : bytes := list_byte_of_string s.

(** A [TCPRequester]: status code and text the target answers to the bytes
    sent, given the requests sent before; [None] when the request fails. *)
Definition TCPRequester : Type := list bytes -> bytes -> option (Z * string).

Section WithOutside.
Context `{Outside}.

(** *** [RequestSubmitter] *)

(** [RequestSubmitter.submit_raw]; the class keeps no extra parameters, the
    dict argument is there for the shape of [raw]. *)
Definition RequestSubmitter_submit_raw (url method target_field : string)
    (params data : gmap string string) (req : HTTPRequester)
    (_ : gmap string string) (raw_payload : string)
  : M Trace (option HTTPResponse) :=
  let '(params, data) :=
    if String.eqb method "POST"
    then (params, <[target_field := raw_payload]> data)
    else (<[target_field := raw_payload]> params, data) in
  log "submitter" INFO "Submit [blue]%s method=%s params=%s data=%s[/]" ;;;
  request req
    {| Py.method := method; Py.url := url;
       Py.params := params; Py.data := data |}.

(** [params if params else {}] *)
Definition dict_or_empty (d : option (gmap string string))
  : gmap string string :=
  match d with
  | Some d => d
  | None => ∅
  end.

Definition RequestSubmitter (url method target_field : string)
    (params data : option (gmap string string)) (requester : HTTPRequester)
    (tampers : list Tamperer) : BaseSubmitter :=
  fold_left (fun self t => add_tamperer t self) tampers
    {| tamperers := [];
       customizable := false;
       extra_params := ∅;
       raw := RequestSubmitter_submit_raw url method target_field
                (dict_or_empty params) (dict_or_empty data) requester |}.

(** *** [TCPSubmitter] *)

(** The bytes [TCPSubmitter.submit_raw] hands to its requester. *)
Definition TCPSubmitter_request (pattern toreplace : bytes)
    (urlencode_payload enable_update_content_length : bool)
    (raw_payload : string) : bytes :=
  let raw_payload :=
    if urlencode_payload then quote raw_payload else raw_payload in
  let request := replace toreplace (encode raw_payload) pattern in
  if enable_update_content_length then update_content_length request
  else request.

(** [TCPSubmitter.submit_raw], over the list of the requests sent. *)
Definition TCPSubmitter_submit_raw (req : TCPRequester)
    (pattern toreplace : bytes)
    (urlencode_payload enable_update_content_length : bool)
    (raw_payload : string) : M (list bytes) (option HTTPResponse) :=
  let request :=
    TCPSubmitter_request pattern toreplace urlencode_payload
      enable_update_content_length raw_payload in
  fun sent =>
    (Returned
       match req sent request with
       | None => None
       | Some (code, text) => Some (mkHTTPResponse code text)
       end,
     sent ++ [request]).

End WithOutside.

End SubmitterMore.

(** ** [fenjing/cli.py]: [parse_headers_cookies] *)

Module CliMore.
Import Py.
Local Open Scope py_scope.

(** [s[:n]] *)
Fixpoint take (n : nat) (s : string) : string :=
  match n, s with
  | O, _ => EmptyString
  | S _, EmptyString => EmptyString
  | S n', String c s' => String c (take n' s')
  end.

(** [s.find(sep)]: where the first occurrence of [sep] starts. *)
Fixpoint find (sep s : string) : option nat :=
  if PyStr.startswith sep s then Some O
  else
    match s with
    | EmptyString => None
    | String _ s' => option_map S (find sep s')
    end.

(** [s.partition(sep)]: split at the first occurrence of [sep]; [s] itself
    and two empty parts when there is none. *)
Definition partition (sep s : string) : string * string * string :=
  match find sep s with
  | Some i => (take i s, sep, PyStr.drop (i + String.length sep) s)
  | None => (s, EmptyString, EmptyString)
  end.

Definition nonempty (s : string) : bool :=
  match s with EmptyString => false | String _ _ => true end.

Section WithCapitalize.

(** [str.capitalize] *)
Variable capitalize : string -> string.

(** The body of the loop over [headers_list], on the dict built so far. *)
Definition parse_header (headers : gmap string string) (header : string)
  : M Trace (gmap string string) :=
  let '(key, _, value) := partition ": " header in
  if negb (nonempty key) || negb (nonempty value) then
    log "cli" WARNING "Failed parsing %s, ignored." ;;;
    ret headers
  else
    key <-
      (if negb (String.eqb (capitalize key) key) then
         log "cli" WARNING "Header %s is not capitalized, fixed." ;;;
         ret (capitalize key)
       else ret key) ;;
    ret (<[key := value]> headers).

Fixpoint parse_headers (headers : gmap string string)
    (headers_list : list string) : M Trace (gmap string string) :=
  match headers_list with
  | [] => ret headers
  | header :: rest =>
      headers <- parse_header headers header ;;
      parse_headers headers rest
  end.

Definition parse_headers_cookies (headers_list : list string)
    (cookies : string) : M Trace (gmap string string) :=
  headers <- parse_headers ∅ headers_list ;;
  if nonempty cookies then ret (<["Cookie" := cookies]> headers)
  else ret headers.

End WithCapitalize.

End CliMore.

(** ** Sample instances, for concrete evaluation *)

Module Samples.
Import Grammar.

(** Modelled from the spec: the table [payload_gen.precedence] is not among
    the sources; the spec describes it as an ordered table from
    grammar-construct name to numeric level.  This instance orders
    literals above postfix constructs above everything else; the
    properties below hold for every table and use this one only where a
    concrete evaluation needs some table. *)
Definition sample_precedence (name : string) : Z :=
  if String.eqb name "literal" then 10%Z
  else if String.eqb name "enclose" then 10%Z
  else if existsb (String.eqb name)
            ["attribute"; "item"; "function_call"; "filter";
             "filter_with_function_call"] then 9%Z
  else 0%Z.

(** Stand-ins for the Python library, the operating system and the target,
    used in concrete evaluations only: escaping functions that leave
    plain text alone, a shell command that copies its input, a random
    source that follows the length of the trace, a form filled into a
    request on its action, and a target that echoes what it is sent. *)
#[export] Instance sample_outside : Py.Outside := {
  Py.html_unescape := fun s => s;
  Py.quote := fun s => s;
  Py.repr := fun s => "'" +:+ s +:+ "'";
  Py.strip := fun s => s;
  Py.pformat := fun l => PyStr.join l;
  Py.popen := fun _ _ input => (0%Z, input);
  Py.random_index := fun tr _ => List.length tr;
  Py.fill_form := fun url form inputs extra =>
    Py.mkRequest (Py.form_method form) (url +:+ Py.action form) extra inputs;
  Py.GETFLAG_CODE_EVAL := "getflag()";
  Py.parse_getflag_info := fun _ => Py.ret None
}.

Definition echo : Py.HTTPRequester :=
  fun _ r =>
    Some (Py.mkHTTPResponse 200
            (Py.url r +:+ "?"
             +:+ PyStr.join (map snd (map_to_list (Py.data r))))).

(** A target that renders what it is sent as a template: text without a
    brace comes back as it is, anything else as an error page. *)
Definition renders : Py.HTTPRequester :=
  fun _ r =>
    let sent := PyStr.join (map snd (map_to_list (Py.data r))) in
    Some (Py.mkHTTPResponse 200
            (if PyStr.contains "{" sent then "Internal Server Error"
             else sent)).

Definition sample_form : Py.Form :=
  Py.mkForm "/greet" "POST" ["name"].

(** A request with a stale length, a [submit_raw] that answers with the
    payload itself, and the object [PathSubmitter] builds for a URL. *)
Definition sample_request : PyBytes.bytes :=
  Eval cbv in
    (PyBytes.b "POST /x HTTP/1.1" ++ Submitter.CRLF
     ++ PyBytes.b "content-LENGTH: 0" ++ Submitter.CRLF
     ++ PyBytes.b "Host: x" ++ Submitter.CRLFCRLF
     ++ PyBytes.b "name={{7*7}}")%list.

Definition sample_raw
  : gmap string string -> string -> Py.M Py.Trace (option Py.HTTPResponse) :=
  fun _ p => Py.ret (Some (Py.mkHTTPResponse 200 p)).

Definition sample_path_submitter : Submitter.BaseSubmitter :=
  {| Submitter.tamperers := [];
     Submitter.customizable := true;
     Submitter.extra_params := ∅;
     Submitter.raw :=
       Submitter.PathSubmitter_submit_raw "http://target/view/" echo |}.

End Samples.

(** ** Sample instances for the further properties *)

Module MoreSamples.

(** [str.capitalize] on ASCII text: the first letter in upper case, the
    other letters in lower case. *)
Definition upper_char (c : ascii) : ascii :=
  if Rules.in_range 97 122 c then ascii_of_nat (nat_of_ascii c - 32) else c.

Definition lower_char (c : ascii) : ascii :=
  if Rules.in_range 65 90 c then ascii_of_nat (nat_of_ascii c + 32) else c.

Fixpoint lower_string (s : string) : string :=
  match s with
  | EmptyString => EmptyString
  | String c s' => String (lower_char c) (lower_string s')
  end.

Definition ascii_capitalize (s : string) : string :=
  match s with
  | EmptyString => EmptyString
  | String c s' => String (upper_char c) (lower_string s')
  end.

(** The same stand-ins, with a shell in which every command fails. *)
Definition failing_shell : Py.Outside := {|
  Py.html_unescape := fun s => s;
  Py.quote := fun s => s;
  Py.repr := fun s => "'" +:+ s +:+ "'";
  Py.strip := fun s => s;
  Py.pformat := fun l => PyStr.join l;
  Py.popen := fun _ _ _ => (1%Z, EmptyString);
  Py.random_index := fun tr _ => List.length tr;
  Py.fill_form := fun url form inputs extra =>
    Py.mkRequest (Py.form_method form) (url +:+ Py.action form) extra inputs;
  Py.GETFLAG_CODE_EVAL := "getflag()";
  Py.parse_getflag_info := fun _ => Py.ret None
|}.

(** A generator with one payload for every goal. *)
Definition one_payload (payload : string) : Cli.generator :=
  fun _ _ => (Some payload, Some true).

End MoreSamples.

(* ===================================================================== *)
(** * Part II: properties                                                 *)
(* ===================================================================== *)

Module PyStrFacts.
Import PyStr.

(** [startswith] and [contains] decide what their names say. *)
Lemma startswith_spec (p s : string) :
  startswith p s = true <-> exists rest, s = p +:+ rest.
Proof.
  revert s. induction p as [|a p IH]; intros s; simpl.
  - split; eauto.
  - destruct s as [|c s].
    + split; [discriminate | intros [rest Hrest]; discriminate].
    + rewrite andb_true_iff, Ascii.eqb_eq, IH. split.
      * intros [-> [rest ->]]. eauto.
      * intros [rest Hrest]. injection Hrest as -> ->. eauto.
Qed.

Lemma contains_spec (w s : string) :
  contains w s = true <-> exists before after, s = before +:+ w +:+ after.
Proof.
  induction s as [|c s IH]; cbn [contains]; rewrite orb_true_iff, startswith_spec.
  - split.
    + intros [[rest Hrest] | Hf]; [|discriminate]. exists "", rest. exact Hrest.
    + intros (before & after & Hs). left.
      destruct before; [eauto | discriminate].
  - rewrite IH. split.
    + intros [[rest Hrest] | (before & after & ->)].
      * exists "", rest. exact Hrest.
      * exists (String c before), after. reflexivity.
    + intros (before & after & Hs). destruct before as [|c' before].
      * left. eauto.
      * right. injection Hs as -> ->. eauto.
Qed.

(** On ASCII text [len] is the number of bytes. *)
Lemma len_ascii (s : string) :
  Forall (fun c => (nat_of_ascii c < 128)%nat) (list_ascii_of_string s) ->
  PyStr.len s = String.length s.
Proof.
  induction s as [|c s IH]; [reflexivity|].
  cbn [list_ascii_of_string PyStr.len String.length].
  intros H. inversion H as [|? ? Hc Hs]; subst.
  unfold PyStr.is_continuation.
  replace (128 <=? nat_of_ascii c)%nat with false
    by (symmetry; apply Nat.leb_gt; exact Hc).
  cbn [andb]. f_equal. now apply IH.
Qed.

End PyStrFacts.

Module RulesFacts.
Import Grammar Rules Resolver Samples.

(** *** The identifier guard of the dotted-access rules *)

Lemma guard_passes_iff (name : string) :
  is_Some (re_match_name name)
  <-> exists c rest, name = String c rest /\ is_name_start c = true.
Proof.
  destruct name as [|c rest]; simpl.
  - split; [intros [x Hx]; discriminate | intros (c & rest & H & _); discriminate].
  - destruct (is_name_start c) eqn:E.
    + split; [intros _; eauto | intros _; eexists; reflexivity].
    + split; [intros [x Hx]; discriminate|].
      intros (c' & rest' & H & Hs). injection H as -> ->. congruence.
Qed.

(** C2 (as the code behaves): the guard of [gen_attribute_normal1] and
    [gen_item_normal1] looks at the first character only.  For the name
    [a-b], which is not an identifier, both rules emit a dotted access
    carrying the name instead of the Unsatisfiable candidate. *)
Theorem dotted_rules_accept_non_identifier :
  forall (precedence : string -> Z) (obj : target),
    gen_attribute_normal1 precedence obj "a-b"
    = [EXPRESSION (precedence "attribute")
         [ENCLOSE_UNDER (precedence "attribute") obj; LITERAL "."; LITERAL "a-b"]]
    /\ gen_item_normal1 precedence obj "a-b"
       = [EXPRESSION (precedence "item")
            [ENCLOSE_UNDER (precedence "item") obj; LITERAL "."; LITERAL "a-b"]]
    /\ name_run "a-b" = 1%nat.
Proof. intros. repeat split. Qed.

(** What the guard does decide: the rules decline exactly the names that
    are empty or start with a character outside [[A-Za-z_]]. *)
Lemma dotted_rule_declines_iff precedence obj name :
  gen_attribute_normal1 precedence obj name = [UNSATISFIED]
  <-> ~ exists c rest, name = String c rest /\ is_name_start c = true.
Proof.
  rewrite <- guard_passes_iff. unfold gen_attribute_normal1.
  destruct (bool_decide (is_Some (re_match_name name))) eqn:E; simpl.
  - apply bool_decide_eq_true in E. split; [discriminate | tauto].
  - apply bool_decide_eq_false in E. tauto.
Qed.

(** *** The chunk-reassembly rules: who declines what *)

Lemma map3_unsat_iff precedence tfp obj name :
  gen_attribute_map3 precedence tfp obj name = [UNSATISFIED]
  <-> (4 < PyStr.len name)%nat.
Proof.
  unfold gen_attribute_map3.
  destruct (4 <? PyStr.len name)%nat eqn:E.
  - apply Nat.ltb_lt in E. tauto.
  - apply Nat.ltb_ge in E. split; [discriminate | lia].
Qed.

Lemma map4_unsat_iff precedence tfp obj name :
  gen_attribute_map4 precedence tfp obj name = [UNSATISFIED]
  <-> (PyStr.len name < 4)%nat.
Proof.
  unfold gen_attribute_map4.
  destruct (PyStr.len name <? 4)%nat eqn:E.
  - apply Nat.ltb_lt in E. tauto.
  - apply Nat.ltb_ge in E. split; [discriminate | lia].
Qed.

Lemma map3_real precedence tfp obj name :
  (PyStr.len name <= 4)%nat ->
  exists ts, gen_attribute_map3 precedence tfp obj name
             = [EXPRESSION (precedence "filter_with_function_call") ts].
Proof.
  intros H. unfold gen_attribute_map3.
  destruct (4 <? PyStr.len name)%nat eqn:E.
  - apply Nat.ltb_lt in E. lia.
  - eexists. reflexivity.
Qed.

Lemma map4_real precedence tfp obj name :
  (4 <= PyStr.len name)%nat ->
  exists ts, gen_attribute_map4 precedence tfp obj name
             = [EXPRESSION (precedence "filter_with_function_call") ts].
Proof.
  intros H. unfold gen_attribute_map4.
  destruct (PyStr.len name <? 4)%nat eqn:E.
  - apply Nat.ltb_lt in E. lia.
  - eexists. reflexivity.
Qed.

(** The bounds count characters, not bytes: a name of three characters
    outside ASCII, six bytes long, is taken by [gen_attribute_map3] and
    declined by [gen_attribute_map4]. *)
Lemma chunk_rules_count_code_points precedence tfp obj :
  PyStr.len "ééé" = 3%nat
  /\ String.length "ééé" = 6%nat
  /\ gen_attribute_map4 precedence tfp obj "ééé" = [UNSATISFIED]
  /\ exists ts,
       gen_attribute_map3 precedence tfp obj "ééé"
       = [EXPRESSION (precedence "filter_with_function_call") ts].
Proof.
  split; [reflexivity|]. split; [reflexivity|]. split; [reflexivity|].
  eexists. reflexivity.
Qed.

(** C10: [gen_attribute_map3] answers with the Unsatisfiable candidate
    exactly for names longer than 4 characters and with a real candidate
    otherwise; [gen_attribute_map4] answers with it exactly for names
    shorter than 4 characters and with a real candidate otherwise; so
    for every name one of the two emits a real candidate, and both do at
    length 4.  The length is [len], in code points. *)
Theorem chunk_rules_cover_every_name :
  forall (precedence : string -> Z) (tfp : string -> repl_dict -> list target)
         (obj : target) (name : string),
    let level := precedence "filter_with_function_call" in
    let c3 := gen_attribute_map3 precedence tfp obj name in
    let c4 := gen_attribute_map4 precedence tfp obj name in
    (c3 = [UNSATISFIED] <-> (4 < PyStr.len name)%nat)
    /\ ((PyStr.len name <= 4)%nat <-> exists ts, c3 = [EXPRESSION level ts])
    /\ (c4 = [UNSATISFIED] <-> (PyStr.len name < 4)%nat)
    /\ ((4 <= PyStr.len name)%nat <-> exists ts, c4 = [EXPRESSION level ts])
    /\ (exists ts, c3 = [EXPRESSION level ts] \/ c4 = [EXPRESSION level ts])
    /\ (PyStr.len name = 4%nat ->
        exists ts3 ts4, c3 = [EXPRESSION level ts3] /\ c4 = [EXPRESSION level ts4]).
Proof.
  intros precedence tfp obj name level c3 c4.
  pose proof (map3_unsat_iff precedence tfp obj name) as U3.
  pose proof (map4_unsat_iff precedence tfp obj name) as U4.
  pose proof (map3_real precedence tfp obj name) as R3.
  pose proof (map4_real precedence tfp obj name) as R4.
  fold c3 in U3, R3. fold c4 in U4, R4. fold level in R3, R4.
  split; [exact U3|]. split.
  { split; [exact R3|]. intros [ts Hts].
    destruct (Nat.le_gt_cases (PyStr.len name) 4) as [|Hgt]; [assumption|].
    apply U3 in Hgt. congruence. }
  split; [exact U4|]. split.
  { split; [exact R4|]. intros [ts Hts].
    destruct (Nat.le_gt_cases 4 (PyStr.len name)) as [|Hlt]; [assumption|].
    apply U4 in Hlt. congruence. }
  split.
  - destruct (Nat.le_gt_cases (PyStr.len name) 4) as [Hle|Hgt].
    + destruct (R3 Hle) as [ts Hts]. exists ts. now left.
    + destruct (R4 ltac:(lia)) as [ts Hts]. exists ts. now right.
  - intros H4. destruct (R3 ltac:(lia)) as [ts3 H3].
    destruct (R4 ltac:(lia)) as [ts4 H4']. eauto.
Qed.

(** *** Chained access *)

Lemma access_not_chained k obj name : is_chained (access k obj name) = false.
Proof. now destruct k. Qed.

Lemma fold_step_not_chained steps obj :
  is_chained obj = false -> is_chained (fold_left step steps obj) = false.
Proof.
  revert obj. induction steps as [|[k n] steps IH]; intros obj H; simpl; [exact H|].
  apply IH, access_not_chained.
Qed.

Lemma unfold_not_chained fuel t :
  is_chained t = false -> unfold_chained fuel t = t.
Proof. destruct fuel, t; simpl; intros H; try reflexivity; discriminate. Qed.

Lemma unfold_chained_fold steps :
  forall fuel obj,
    (List.length steps < fuel)%nat ->
    is_chained obj = false ->
    unfold_chained fuel (CHAINED_ATTRIBUTE_ITEM obj steps)
    = fold_left step steps obj.
Proof.
  induction steps as [|[k n] steps IH]; intros fuel obj Hfuel Hobj.
  - destruct fuel as [|fuel]; [simpl in Hfuel; lia|]. simpl.
    now apply unfold_not_chained.
  - destruct fuel as [|fuel]; [simpl in Hfuel; lia|]. simpl.
    apply IH; [simpl in Hfuel; lia | apply access_not_chained].
Qed.

(** C4: on no steps the rule answers with the object requirement alone; on
    a first step [(kind, name)] and further steps it answers with the one
    candidate that nests the first step around the object and carries the
    other steps in a chained requirement; unfolding the requirement with
    the rule, with fuel beyond the number of steps, gives the left fold of
    the steps over the object. *)
Theorem chained_rule_folds_left :
  forall (obj : target),
    gen_chained_attribute_item_normal obj [] = [obj]
    /\ (forall k name others,
           gen_chained_attribute_item_normal obj ((k, name) :: others)
           = [CHAINED_ATTRIBUTE_ITEM (access k obj name) others])
    /\ (forall steps fuel,
           (List.length steps < fuel)%nat ->
           is_chained obj = false ->
           unfold_chained fuel (CHAINED_ATTRIBUTE_ITEM obj steps)
           = fold_left step steps obj)
    /\ (forall steps,
           unfold_chained (S (List.length steps)) (CHAINED_ATTRIBUTE_ITEM obj steps)
           = fold_left step steps obj).
Proof.
  intros obj. split; [reflexivity|]. split; [reflexivity|]. split.
  - intros steps fuel. apply unfold_chained_fold.
  - intros steps. revert obj.
    induction steps as [|[k n] steps IH]; intros obj; simpl.
    + now destruct obj.
    + apply IH.
Qed.

Lemma chained_rule_folds_left_witness :
  unfold_chained 5
    (CHAINED_ATTRIBUTE_ITEM (FLASK_CONTEXT_VAR "request")
       [(KATTRIBUTE, "values"); (KITEM, "eval_this")])
  = ITEM (ATTRIBUTE (FLASK_CONTEXT_VAR "request") "values") "eval_this".
Proof.
  apply (proj1 (proj2 (proj2 (chained_rule_folds_left (FLASK_CONTEXT_VAR "request"))))
           [(KATTRIBUTE, "values"); (KITEM, "eval_this")] 5%nat);
    [simpl; lia | reflexivity].
Defined.

(** *** Enclosure *)

Lemma string_length_app (a b : string) :
  String.length (a +:+ b) = (String.length a + String.length b)%nat.
Proof. induction a as [|c a IH]; simpl; [reflexivity | now rewrite IH]. Qed.

Lemma group_neq (s : string) : group s <> s.
Proof.
  intros H. apply (f_equal String.length) in H. unfold group in H.
  rewrite !string_length_app in H. simpl in H. lia.
Qed.

Lemma render_enclose resolve ws wrap required sub p s :
  resolve sub = Some (p, s) ->
  render resolve ws wrap (ENCLOSE_UNDER required sub)
  = Some (enclose_under required p s).
Proof. intros H. simpl. now rewrite H. Qed.

Lemma enclose_under_group_iff required p s :
  enclose_under required p s = group s <-> (p < required)%Z.
Proof.
  unfold enclose_under. destruct (p <? required)%Z eqn:E.
  - apply Z.ltb_lt in E. tauto.
  - apply Z.ltb_ge in E. split; [|lia].
    intros H. symmetry in H. now apply group_neq in H.
Qed.

Lemma enclose_under_plain_iff required p s :
  enclose_under required p s = s <-> (required <= p)%Z.
Proof.
  unfold enclose_under. destruct (p <? required)%Z eqn:E.
  - apply Z.ltb_lt in E. split; [|lia]. intros H. now apply group_neq in H.
  - apply Z.ltb_ge in E. tauto.
Qed.

Ltac candidate_cases :=
  repeat match goal with
    | H : In _ _ |- _ => progress simpl in H
    | H : _ \/ _ |- _ => destruct H as [H | H]
    | H : False |- _ => destruct H
    | H : (_, _) = (_, _) |- _ => injection H as ? ?
    | H : _ = ?x |- _ => is_var x; subst x
    end.

Lemma enclosing_rule_shape precedence level rule obj name cand required sub :
  In (level, rule) (object_enclosing_rules precedence) ->
  In cand (rule obj name) ->
  In (required, sub) (enclosures cand) ->
  required = precedence level
  /\ (exists ts, cand = EXPRESSION (precedence level) ts)
  /\ (sub = obj \/ exists attr, sub = ATTRIBUTE obj attr).
Proof.
  intros Hrule Hcand Hsub. unfold object_enclosing_rules in Hrule.
  candidate_cases;
    try (unfold gen_attribute_normal1, gen_item_normal1 in Hcand;
         destruct (negb _) in Hcand);
    candidate_cases;
    (split; [reflexivity|]); (split; [eexists; reflexivity|]); eauto.
Qed.

(** C1: for every candidate of a rule that puts its object under
    [ENCLOSE_UNDER] at the rule's own level, the fragment renders to the
    grouped text of the sub-candidate exactly when the sub-candidate's
    precedence is strictly below that level, and to the bare text exactly
    when it is at or above it. *)
Theorem enclosure_iff_lower_precedence :
  forall (precedence : string -> Z)
         (resolve : target -> option (Z * string)) (ws : string)
         (wrap : string -> string)
         (level : string) (rule : target -> string -> list target)
         (obj : target) (name : string) (cand : target)
         (required : Z) (sub : target) (p : Z) (s : string),
    In (level, rule) (object_enclosing_rules precedence) ->
    In cand (rule obj name) ->
    In (required, sub) (enclosures cand) ->
    resolve sub = Some (p, s) ->
    required = precedence level
    /\ (exists ts, cand = EXPRESSION (precedence level) ts)
    /\ (sub = obj \/ exists attr, sub = ATTRIBUTE obj attr)
    /\ render resolve ws wrap (ENCLOSE_UNDER required sub)
       = Some (if (p <? precedence level)%Z then group s else s)
    /\ (render resolve ws wrap (ENCLOSE_UNDER required sub) = Some (group s)
        <-> (p < precedence level)%Z)
    /\ (render resolve ws wrap (ENCLOSE_UNDER required sub) = Some s
        <-> (precedence level <= p)%Z).
Proof.
  intros precedence resolve ws wrap level rule obj name cand required sub p s
         Hrule Hcand Hsub Hres.
  destruct (enclosing_rule_shape _ _ _ _ _ _ _ _ Hrule Hcand Hsub)
    as (-> & Hexp & Hobj).
  rewrite (render_enclose _ _ _ _ _ _ _ Hres).
  split; [reflexivity|]. split; [exact Hexp|]. split; [exact Hobj|].
  split; [reflexivity|]. split.
  - rewrite <- enclose_under_group_iff. split; [now intros [= ->] | now intros ->].
  - rewrite <- enclose_under_plain_iff. split; [now intros [= ->] | now intros ->].
Qed.

Lemma enclosure_iff_lower_precedence_witness :
  render (fun _ => Some (0%Z, "a+b")) " " group
    (ENCLOSE_UNDER (sample_precedence "attribute") (FLASK_CONTEXT_VAR "g"))
  = Some "(a+b)".
Proof.
  refine (proj1 (proj2 (proj2 (proj2
    (enclosure_iff_lower_precedence sample_precedence
       (fun _ => Some (0%Z, "a+b")) " " group
       "attribute" (gen_attribute_normal1 sample_precedence)
       (FLASK_CONTEXT_VAR "g") "x"
       (EXPRESSION (sample_precedence "attribute")
          [ENCLOSE_UNDER (sample_precedence "attribute") (FLASK_CONTEXT_VAR "g");
           LITERAL "."; LITERAL "x"])
       (sample_precedence "attribute") (FLASK_CONTEXT_VAR "g") 0%Z "a+b"
       _ _ _ _))))).
  - simpl. left. reflexivity.
  - simpl. left. reflexivity.
  - simpl. left. reflexivity.
  - reflexivity.
Defined.

End RulesFacts.

Module BytesFacts.
Import PyBytes.

Lemma byte_eqb_eq (a c : byte) : Byte.eqb a c = true <-> a = c.
Proof.
  split; [apply Byte.byte_dec_bl | apply Byte.byte_dec_lb].
Qed.

Lemma startswith_app (p s : bytes) :
  startswith p s = true <-> exists rest, s = p ++ rest.
Proof.
  revert s. induction p as [|a p IH]; intros s; simpl.
  - split; eauto.
  - destruct s as [|c s].
    + split; [discriminate | intros [rest H]; discriminate].
    + rewrite andb_true_iff, byte_eqb_eq, IH. split.
      * intros [-> [rest ->]]. eauto.
      * intros [rest H]. injection H as -> ->. eauto.
Qed.

Lemma rfind_bound sep s i : rfind sep s = Some i -> (i <= List.length s)%nat.
Proof.
  revert i. induction s as [|c s IH]; intros i; simpl.
  - destruct (startswith sep []); intros [= <-]; lia.
  - destruct (rfind sep s) as [j|].
    + intros [= <-]. specialize (IH j eq_refl). lia.
    + destruct (startswith sep (c :: s)); intros [= <-]; lia.
Qed.

(** The last occurrence is an occurrence, and the suffix that starts there
    has its last occurrence at its head. *)
Lemma rfind_here sep s i :
  rfind sep s = Some i ->
  startswith sep (skipn i s) = true /\ rfind sep (skipn i s) = Some O.
Proof.
  revert i. induction s as [|c s IH]; intros i; simpl.
  - destruct (startswith sep []) eqn:E; intros [= <-]. simpl. now rewrite E.
  - destruct (rfind sep s) as [j|] eqn:Ej.
    + intros [= <-]. simpl. now apply IH.
    + destruct (startswith sep (c :: s)) eqn:E; intros [= <-].
      simpl. now rewrite Ej, E.
Qed.

Lemma rfind_after_prefix sep h t :
  rfind sep t = Some O -> rfind sep (h ++ t) = Some (List.length h).
Proof.
  intros H. induction h as [|c h IH]; simpl; [exact H | now rewrite IH].
Qed.

Lemma rpartition_after_prefix sep h t :
  rfind sep (sep ++ t) = Some O ->
  rpartition sep (h ++ sep ++ t) = (h, sep, t).
Proof.
  intros H. unfold rpartition. rewrite (rfind_after_prefix _ h _ H).
  rewrite firstn_app, Nat.sub_diag, firstn_all, firstn_O, app_nil_r.
  rewrite skipn_app, skipn_all2 by lia.
  replace (List.length h + List.length sep - List.length h)%nat
    with (List.length sep) by lia.
  rewrite skipn_app, Nat.sub_diag, skipn_all. reflexivity.
Qed.

Lemma rfind_none_iff sep s : rfind sep s = None <-> contains sep s = false.
Proof.
  induction s as [|c s IH]; simpl.
  - destruct (startswith sep []); simpl; split; congruence.
  - destruct (rfind sep s) as [j|].
    + split; [discriminate|]. intros H. apply orb_false_iff in H as [_ H].
      apply IH in H. discriminate.
    + destruct (startswith sep (c :: s)); simpl; [split; discriminate|].
      split; [intros _; now apply IH | reflexivity].
Qed.

Lemma rpartition_found sep s h m t :
  sep <> [] -> rpartition sep s = (h, m, t) -> m = sep ->
  s = h ++ sep ++ t /\ rfind sep (sep ++ t) = Some O /\ rfind sep s = Some (List.length h).
Proof.
  intros Hsep. unfold rpartition. destruct (rfind sep s) as [i|] eqn:E.
  - intros [= <- <- <-] _. pose proof (rfind_bound _ _ _ E) as Hb.
    destruct (rfind_here _ _ _ E) as [Hs Hr].
    apply startswith_app in Hs as [rest Hrest].
    assert (skipn (i + List.length sep) s = rest) as ->.
    { rewrite Nat.add_comm, <- skipn_skipn, Hrest.
      rewrite skipn_app, Nat.sub_diag, skipn_all. reflexivity. }
    split; [now rewrite <- Hrest, firstn_skipn|].
    split; [now rewrite <- Hrest|]. rewrite length_firstn.
    now replace (Nat.min i (List.length s)) with i by lia.
  - intros [= <- <- <-] Hm. congruence.
Qed.

End BytesFacts.

Module ContentLengthFacts.
Import PyBytes Submitter BytesFacts Samples.

Lemma istartswith_head x s :
  istartswith content_length_name (x :: s) = true -> lower x = x63.
Proof.
  simpl. intros H. apply andb_true_iff in H as [H _].
  apply byte_eqb_eq in H. now rewrite <- H.
Qed.

Lemma istartswith_cons a p x s :
  istartswith (a :: p) (x :: s)
  = Byte.eqb (lower a) (lower x) && istartswith p s.
Proof. reflexivity. Qed.

Lemma istartswith_firstn p s :
  istartswith p s = istartswith p (firstn (List.length p) s).
Proof.
  revert s. induction p as [|a p IH]; intros [|x s]; simpl; try reflexivity.
  now rewrite IH.
Qed.

Lemma istartswith_not_c p s :
  Forall (fun a => lower a <> x63) p ->
  istartswith p s = true ->
  Forall not_c (firstn (List.length p) s).
Proof.
  intros Hp. revert s.
  induction Hp as [|a p Ha Hp IH]; intros [|x s] H; simpl in *;
    try discriminate; try (now constructor).
  apply andb_true_iff in H as [Hx H]. apply byte_eqb_eq in Hx.
  constructor; [unfold not_c; now rewrite <- Hx | now apply IH].
Qed.

Lemma digits_not_c d : Forall not_c (digits d).
Proof. induction d; simpl; constructor; try assumption; discriminate. Qed.

Lemma line_head n :
  exists tail, content_length_line n = x43 :: tail /\ Forall not_c tail.
Proof.
  exists (tl content_length_prefix ++ str_of_nat n).
  split; [reflexivity|]. apply Forall_app. split.
  - repeat constructor; discriminate.
  - apply digits_not_c.
Qed.

Lemma line_starts n t :
  istartswith content_length_name (content_length_line n ++ t) = true.
Proof. reflexivity. Qed.

Lemma skipn_inside (tail t : bytes) k :
  Forall not_c tail -> (k < List.length tail)%nat ->
  exists x r, skipn k (tail ++ t) = x :: r /\ not_c x.
Proof.
  intros H. revert k. induction H as [|x tail Hx H IH]; intros k Hk;
    simpl in Hk; [lia|].
  destruct k as [|k]; simpl; [eauto|]. apply IH. lia.
Qed.

(** *** [names_length], piece by piece *)

Lemma names_length_nil n : names_length [] n.
Proof. intros i H. now rewrite skipn_nil in H. Qed.

Lemma names_length_cons c t n :
  istartswith content_length_name (c :: t) = false ->
  names_length t n -> names_length (c :: t) n.
Proof.
  intros Hc Ht [|i] H; simpl in *; [congruence | now apply Ht].
Qed.

Lemma names_length_line t n :
  ends_line t -> names_length t n ->
  names_length (content_length_line n ++ t) n.
Proof.
  intros He Ht i H. destruct (line_head n) as (tail & Hline & Htail).
  destruct i as [|i]; [exists t; now split|].
  assert (skipn (S i) (content_length_line n ++ t) = skipn i (tail ++ t))
    as Hs by (now rewrite Hline).
  rewrite Hs in H |- *. clear Hs.
  destruct (Nat.lt_ge_cases i (List.length tail)) as [Hlt|Hge].
  - destruct (skipn_inside tail t i Htail Hlt) as (x & r & Hx & Hnc).
    rewrite Hx in H. apply istartswith_head in H. contradiction.
  - rewrite skipn_app, (skipn_all2 tail) in H |- * by lia.
    cbn [app] in H |- *. now apply Ht.
Qed.

(** *** The substitution *)

Lemma subn_go_skip repl k s :
  subn_go repl k s = subn_go repl 0 (skipn k s).
Proof.
  revert s. induction k as [|k IH]; intros s; [reflexivity|].
  destruct s as [|c s]; [reflexivity|]. simpl. apply IH.
Qed.

Lemma match_content_length_some s m :
  match_content_length s = Some m ->
  istartswith content_length_name s = true
  /\ m = (15 + dot_star (skipn 15 s))%nat.
Proof.
  unfold match_content_length.
  destruct (istartswith content_length_name s); [|discriminate].
  intros [= <-]. now split.
Qed.

Lemma match_content_length_none s :
  match_content_length s = None ->
  istartswith content_length_name s = false.
Proof.
  unfold match_content_length.
  now destruct (istartswith content_length_name s).
Qed.

Lemma subn_matched repl c rest m :
  match_content_length (c :: rest) = Some m ->
  subn_go repl 0 (c :: rest)
  = (repl ++ fst (subn_go repl 0 (skipn m (c :: rest))),
     S (snd (subn_go repl 0 (skipn m (c :: rest))))).
Proof.
  intros H. simpl subn_go. rewrite H.
  destruct (match_content_length_some _ _ H) as [_ ->].
  rewrite subn_go_skip. simpl.
  now destruct (subn_go repl 0 _).
Qed.

Lemma subn_unmatched repl c rest :
  match_content_length (c :: rest) = None ->
  subn_go repl 0 (c :: rest)
  = (c :: fst (subn_go repl 0 rest), snd (subn_go repl 0 rest)).
Proof.
  intros H. simpl subn_go. rewrite H. now destruct (subn_go repl 0 rest).
Qed.

Lemma dot_star_stops u :
  skipn (dot_star u) u = [] \/ exists r, skipn (dot_star u) u = LF :: r.
Proof.
  induction u as [|x u IH]; simpl; [now left|].
  destruct (Byte.eqb x LF) eqn:E; [|exact IH].
  apply byte_eqb_eq in E. subst x. right. eauto.
Qed.

Lemma after_match s m :
  match_content_length s = Some m ->
  (List.length (skipn m s) < List.length s)%nat
  /\ (skipn m s = [] \/ exists r, skipn m s = LF :: r).
Proof.
  intros H. destruct (match_content_length_some _ _ H) as [Hs ->].
  split.
  - rewrite length_skipn. destruct s; [discriminate|]. simpl List.length. lia.
  - rewrite Nat.add_comm, <- skipn_skipn. apply dot_star_stops.
Qed.

Lemma subn_keeps_line_feed repl r :
  fst (subn_go repl 0 (LF :: r)) = LF :: fst (subn_go repl 0 r).
Proof. now rewrite subn_unmatched. Qed.

(** Up to the first byte that is a letter c, the substitution leaves its
    input as it is. *)
Lemma subn_firstn n k :
  forall s,
    Forall not_c (firstn k (fst (subn_go (content_length_line n) 0 s))) ->
    firstn k (fst (subn_go (content_length_line n) 0 s)) = firstn k s.
Proof.
  induction k as [|k IH]; intros s H; [reflexivity|].
  destruct s as [|c rest]; [reflexivity|].
  destruct (match_content_length (c :: rest)) as [m|] eqn:E.
  - rewrite (subn_matched _ _ _ _ E) in H. simpl fst in H.
    destruct (line_head n) as (tail & Hline & _). rewrite Hline in H.
    simpl in H. inversion H as [|? ? Hc _]. now elim Hc.
  - rewrite (subn_unmatched _ _ _ E) in H |- *. simpl in H |- *.
    inversion H as [|? ? _ Hrest]. f_equal. now apply IH.
Qed.

Lemma subn_no_new_start n c rest :
  istartswith content_length_name (c :: rest) = false ->
  istartswith content_length_name
    (c :: fst (subn_go (content_length_line n) 0 rest)) = false.
Proof.
  intros H.
  destruct (istartswith content_length_name
              (c :: fst (subn_go (content_length_line n) 0 rest))) eqn:E;
    [|reflexivity].
  rewrite <- H. symmetry.
  change content_length_name with (x43 :: tl content_length_name) in E |- *.
  rewrite istartswith_cons in E |- *.
  apply andb_true_iff in E as [Ec E]. rewrite Ec. cbn [andb].
  assert (Forall (fun a => lower a <> x63) (tl content_length_name)) as Hp
    by (repeat constructor; discriminate).
  pose proof (istartswith_not_c _ _ Hp E) as Hnc.
  apply subn_firstn in Hnc.
  now rewrite istartswith_firstn, <- Hnc, <- istartswith_firstn.
Qed.

Lemma subn_names_length n :
  forall len s, (List.length s <= len)%nat ->
    names_length (fst (subn_go (content_length_line n) 0 s)) n.
Proof.
  induction len as [|len IH]; intros s Hlen.
  - destruct s; [apply names_length_nil | simpl in Hlen; lia].
  - destruct s as [|c rest]; [apply names_length_nil|].
    destruct (match_content_length (c :: rest)) as [m|] eqn:E.
    + rewrite (subn_matched _ _ _ _ E). simpl fst.
      destruct (after_match _ _ E) as [Hshort Hend].
      simpl in Hlen. apply names_length_line.
      * destruct Hend as [-> | [r ->]]; [now left|].
        right. rewrite subn_keeps_line_feed. eauto.
      * apply IH. simpl in Hshort. lia.
    + rewrite (subn_unmatched _ _ _ E). simpl fst.
      apply names_length_cons.
      * apply subn_no_new_start. now apply match_content_length_none.
      * apply IH. simpl in Hlen. lia.
Qed.

(** *** Whether anything is replaced *)

Lemma subn_untouched repl s :
  icontains content_length_name s = false -> subn_go repl 0 s = (s, O).
Proof.
  induction s as [|c rest IH]; [reflexivity|].
  cbn [icontains]. intros H. apply orb_false_iff in H as [Hc Hrest].
  rewrite subn_unmatched, (IH Hrest); [reflexivity|].
  unfold match_content_length. now rewrite Hc.
Qed.

Lemma subn_replaces repl s :
  icontains content_length_name s = true -> snd (subn_go repl 0 s) <> O.
Proof.
  induction s as [|c rest IH]; [discriminate|].
  cbn [icontains]. intros H.
  destruct (match_content_length (c :: rest)) as [m|] eqn:E.
  - rewrite (subn_matched _ _ _ _ E). simpl. discriminate.
  - rewrite (subn_unmatched _ _ _ E). simpl. apply IH.
    rewrite (match_content_length_none _ E) in H. exact H.
Qed.

Lemma icontains_here p s :
  istartswith p s = true -> icontains p s = true.
Proof. intros H. destruct s; cbn [icontains]; now rewrite H. Qed.

Lemma subn_result_names n s :
  icontains content_length_name s = true ->
  icontains content_length_name (fst (subn_go (content_length_line n) 0 s))
  = true.
Proof.
  induction s as [|c rest IH]; [discriminate|].
  cbn [icontains]. intros H.
  destruct (match_content_length (c :: rest)) as [m|] eqn:E.
  - rewrite (subn_matched _ _ _ _ E). cbn [fst].
    apply icontains_here, line_starts.
  - rewrite (subn_unmatched _ _ _ E). cbn [fst icontains].
    rewrite (match_content_length_none _ E) in H. rewrite (IH H).
    apply orb_true_r.
Qed.

(** *** Appending the line to a header that has none *)

Lemma istartswith_stop p a x t :
  Forall (fun q => lower q <> lower x) p ->
  istartswith p (a ++ x :: t) = true -> istartswith p a = true.
Proof.
  intros Hp. revert a. induction Hp as [|q p Hq Hp IH]; intros a H;
    [reflexivity|].
  destruct a as [|y a]; cbn [app] in H; rewrite istartswith_cons in H;
    apply andb_true_iff in H as [Hy H].
  - apply byte_eqb_eq in Hy. contradiction.
  - rewrite istartswith_cons, Hy. now apply IH.
Qed.

Lemma name_has_no_cr :
  Forall (fun q => lower q <> lower CR) content_length_name.
Proof. repeat constructor; discriminate. Qed.

Lemma appended_names_length h n :
  icontains content_length_name h = false ->
  names_length (h ++ CRLF ++ content_length_line n) n.
Proof.
  induction h as [|c h IH]; intros H.
  - cbn [app CRLF]. apply names_length_cons; [reflexivity|].
    apply names_length_cons; [reflexivity|].
    rewrite <- (app_nil_r (content_length_line n)).
    apply names_length_line; [now left | apply names_length_nil].
  - cbn [icontains] in H. apply orb_false_iff in H as [Hc Hh].
    change ((c :: h) ++ CRLF ++ content_length_line n)
      with ((c :: h) ++ CR :: (LF :: content_length_line n)).
    cbn [app]. apply names_length_cons; [|now apply IH].
    destruct (istartswith content_length_name
                (c :: h ++ CR :: LF :: content_length_line n)) eqn:E;
      [|reflexivity].
    change (c :: h ++ CR :: LF :: content_length_line n)
      with ((c :: h) ++ CR :: (LF :: content_length_line n)) in E.
    apply (istartswith_stop _ _ _ _ name_has_no_cr) in E. congruence.
Qed.

Lemma icontains_app_r p h t :
  icontains p t = true -> icontains p (h ++ t) = true.
Proof.
  intros H. induction h as [|c h IH]; [exact H|].
  cbn [app icontains]. rewrite IH. apply orb_true_r.
Qed.

Lemma line_names n :
  icontains content_length_name (content_length_line n) = true.
Proof.
  rewrite <- (app_nil_r (content_length_line n)).
  apply icontains_here, line_starts.
Qed.

(** *** The function itself *)

Lemma crlfcrlf_not_empty : CRLFCRLF <> [].
Proof. discriminate. Qed.

Lemma rpartition_middle sep s h m t :
  rpartition sep s = (h, m, t) -> h <> [] -> m = sep.
Proof.
  unfold rpartition. destruct (rfind sep s); intros [= <- <- <-]; congruence.
Qed.

Lemma update_unchanged_without_header request :
  fst (fst (rpartition CRLFCRLF request)) = [] ->
  update_content_length request = request.
Proof.
  intros H. unfold update_content_length.
  destruct (startswith GET request || startswith HEAD request); [reflexivity|].
  destruct (rpartition CRLFCRLF request) as [[header m] body].
  simpl in H. now subst header.
Qed.

Lemma update_unchanged_without_separator request :
  contains CRLFCRLF request = false ->
  update_content_length request = request.
Proof.
  intros H. apply update_unchanged_without_header.
  apply rfind_none_iff in H. unfold rpartition. now rewrite H.
Qed.

Lemma update_with_header request header m body :
  startswith GET request || startswith HEAD request = false ->
  rpartition CRLFCRLF request = (header, m, body) ->
  header <> [] ->
  update_content_length request
  = (if icontains content_length_name header
     then fst (re_subn_content_length
                 (content_length_line (List.length body)) header)
     else header ++ CRLF ++ content_length_line (List.length body))
    ++ CRLFCRLF ++ body.
Proof.
  intros Hget Hpart Hne. unfold update_content_length.
  rewrite Hget, Hpart.
  destruct header as [|c header]; [congruence|]. cbn [List.length Nat.eqb].
  fold (content_length_line (List.length body)).
  unfold re_subn_content_length.
  destruct (icontains content_length_name (c :: header)) eqn:E.
  - pose proof (subn_replaces (content_length_line (List.length body)) _ E) as Hn.
    destruct (subn_go _ 0 (c :: header)) as [result count]. simpl in Hn |- *.
    destruct count; [congruence | reflexivity].
  - now rewrite (subn_untouched _ _ E).
Qed.

(** The result for a request with something before its final blank line:
    header, blank line and the same body; the new header mentions
    [Content-Length:], and every mention reads [Content-Length: n] to the
    next line feed. *)
Lemma update_result request header m body :
  startswith GET request || startswith HEAD request = false ->
  rpartition CRLFCRLF request = (header, m, body) ->
  header <> [] ->
  exists header',
    update_content_length request = header' ++ CRLFCRLF ++ body
    /\ rpartition CRLFCRLF (update_content_length request)
       = (header', CRLFCRLF, body)
    /\ icontains content_length_name header' = true
    /\ names_length header' (List.length body)
    /\ header'
       = (if icontains content_length_name header
          then fst (re_subn_content_length
                      (content_length_line (List.length body)) header)
          else header ++ CRLF ++ content_length_line (List.length body)).
Proof.
  intros Hget Hpart Hne.
  pose proof (rpartition_middle _ _ _ _ _ Hpart Hne) as ->.
  destruct (rpartition_found _ _ _ _ _ crlfcrlf_not_empty Hpart eq_refl)
    as (Hreq & Hlast & _).
  rewrite (update_with_header _ _ _ _ Hget Hpart Hne).
  set (n := List.length body).
  set (header' :=
         if icontains content_length_name header
         then fst (re_subn_content_length (content_length_line n) header)
         else header ++ CRLF ++ content_length_line n).
  exists header'. split; [reflexivity|]. split.
  { now apply rpartition_after_prefix. }
  subst header'. destruct (icontains content_length_name header) eqn:E.
  - split; [now apply subn_result_names|].
    split; [now apply (subn_names_length n (List.length header))|].
    reflexivity.
  - split; [apply icontains_app_r, icontains_app_r, line_names|].
    split; [now apply appended_names_length | reflexivity].
Qed.

(** *** Content-Length headers: lines that start with the name *)

Lemma istartswith_no_line_feed p s j :
  Forall (fun q => lower q <> lower LF) p ->
  istartswith p s = true ->
  (j < List.length p)%nat -> nth_error s j <> Some LF.
Proof.
  intros Hp. revert s j.
  induction Hp as [|q p Hq Hp IH]; intros s j H Hj; simpl in Hj; [lia|].
  destruct s as [|x s]; [discriminate|].
  rewrite istartswith_cons in H. apply andb_true_iff in H as [Hx H].
  apply byte_eqb_eq in Hx. destruct j as [|j]; simpl.
  - intros [= ->]. congruence.
  - apply IH; [exact H | lia].
Qed.

Lemma dot_star_no_line_feed u j :
  (j < dot_star u)%nat -> nth_error u j <> Some LF.
Proof.
  revert j. induction u as [|x u IH]; intros j Hj; simpl in Hj; [lia|].
  destruct (Byte.eqb x LF) eqn:E; [lia|].
  destruct j as [|j]; simpl.
  - intros [= ->]. now rewrite (proj2 (byte_eqb_eq LF LF) eq_refl) in E.
  - apply IH. lia.
Qed.

Lemma name_has_no_line_feed :
  Forall (fun q => lower q <> lower LF) content_length_name.
Proof. repeat constructor; discriminate. Qed.

(** A match runs within its line. *)
Lemma match_has_no_line_feed s m j :
  match_content_length s = Some m ->
  nth_error s j = Some LF -> (m <= j)%nat.
Proof.
  intros H Hj. destruct (match_content_length_some _ _ H) as [Hs ->].
  destruct (Nat.lt_ge_cases j 15) as [Hlt|Hge].
  - now elim (istartswith_no_line_feed _ _ j name_has_no_line_feed Hs Hlt).
  - destruct (Nat.lt_ge_cases j (15 + dot_star (skipn 15 s))) as [Hin|];
      [|assumption].
    elim (dot_star_no_line_feed (skipn 15 s) (j - 15)); [lia|].
    rewrite List.nth_error_skipn. now replace (15 + (j - 15))%nat with j by lia.
Qed.

(** The substitution keeps a line that starts with the name: it writes
    over it where it stands.  [prev] tells whether the text starts a
    line. *)
Lemma subn_keeps_header n :
  forall len s (prev : bool),
    (List.length s <= len)%nat ->
    (exists i,
        istartswith content_length_name (skipn i s) = true
        /\ match i with
           | O => prev = true
           | S j => nth_error s j = Some LF
           end) ->
    exists i,
      istartswith content_length_name
        (skipn i (fst (subn_go (content_length_line n) 0 s))) = true
      /\ match i with
         | O => prev = true
         | S j =>
             nth_error (fst (subn_go (content_length_line n) 0 s)) j
             = Some LF
         end.
Proof.
  induction len as [|len IH]; intros s prev Hlen (i & Hi & Hline).
  - destruct s; [|simpl in Hlen; lia]. now rewrite skipn_nil in Hi.
  - destruct s as [|c rest]; [now rewrite skipn_nil in Hi|].
    simpl in Hlen.
    destruct (match_content_length (c :: rest)) as [m|] eqn:E.
    + rewrite (subn_matched _ _ _ _ E). cbn [fst].
      destruct i as [|j].
      * exists O. split; [apply line_starts | exact Hline].
      * pose proof (match_has_no_line_feed _ _ _ E Hline) as Hm.
        destruct (after_match _ _ E) as [Hshort _].
        destruct (IH (skipn m (c :: rest)) false) as (i' & Hi' & Hl').
        { simpl in Hshort. lia. }
        { exists (S (j - m)). split.
          - rewrite List.skipn_skipn.
            now replace (S (j - m) + m)%nat with (S j) by lia.
          - rewrite List.nth_error_skipn.
            now replace (m + (j - m))%nat with j by lia. }
        destruct i' as [|j']; [discriminate|].
        exists (S (List.length (content_length_line n) + j')). split.
        -- replace (S (List.length (content_length_line n) + j'))
             with (List.length (content_length_line n) + S j')%nat by lia.
           rewrite List.skipn_app, List.skipn_all2 by lia.
           now replace (List.length (content_length_line n) + S j'
                        - List.length (content_length_line n))%nat
             with (S j') by lia.
        -- rewrite List.nth_error_app2 by lia.
           now replace (List.length (content_length_line n) + j'
                        - List.length (content_length_line n))%nat
             with j' by lia.
    + rewrite (subn_unmatched _ _ _ E). cbn [fst].
      apply match_content_length_none in E.
      destruct i as [|[|j]].
      * cbn [skipn] in Hi. congruence.
      * cbn [skipn nth_error] in Hi, Hline. injection Hline as ->.
        destruct (IH rest true ltac:(lia)) as (i' & Hi' & Hl').
        { exists O. split; [exact Hi | reflexivity]. }
        destruct i' as [|j'].
        -- exists 1%nat. split; [exact Hi' | reflexivity].
        -- exists (S (S j')). split; [exact Hi' | exact Hl'].
      * cbn [skipn nth_error] in Hi, Hline.
        destruct (IH rest false ltac:(lia)) as (i' & Hi' & Hl').
        { exists (S j). split; [exact Hi | exact Hline]. }
        destruct i' as [|j']; [discriminate|].
        exists (S (S j')). split; [exact Hi' | exact Hl'].
Qed.

Lemma header_kept n header :
  has_content_length_header header ->
  has_content_length_header
    (fst (re_subn_content_length (content_length_line n) header)).
Proof.
  intros (i & Hline & Hi).
  destruct (subn_keeps_header n (List.length header) header true
              (Nat.le_refl _)) as (i' & Hi' & Hl').
  { exists i. split; [exact Hi|]. now destruct i. }
  exists i'. split; [|exact Hi']. now destruct i'.
Qed.

Lemma header_appended header n :
  has_content_length_header (header ++ CRLF ++ content_length_line n).
Proof.
  exists (S (S (List.length header))). split.
  - cbn [starts_line].
    rewrite List.nth_error_app2 by lia.
    now replace (S (List.length header) - List.length header)%nat
      with 1%nat by lia.
  - replace (S (S (List.length header)))
      with (List.length header + 2)%nat by lia.
    rewrite List.skipn_app, List.skipn_all2 by lia.
    now replace (List.length header + 2 - List.length header)%nat
      with 2%nat by lia.
Qed.

Lemma names_length_header_value header n :
  names_length header n -> header_value_is header n.
Proof.
  intros H i [_ Hi]. destruct (H i Hi) as (rest & E & Hend).
  exists rest. split; [exact E|].
  destruct Hend as [-> | Hlf]; [now left | right; now left].
Qed.

(** C8 (amended): a request that starts with [GET] or [HEAD], one that has
    no blank line, and also one that has nothing before its final blank
    line, comes back unchanged.  Any other request comes back as a header,
    the blank line and the same body, the body still being what follows
    the final blank line, and every Content-Length header in it (a line
    that starts with [Content-Length:] in whatever case) reads
    [Content-Length: n] up to its line break, [n] the byte length of the
    body: a request that has such a header keeps one, and a request whose
    header does not mention [Content-Length:] gets the line appended after
    a line break. *)
Theorem update_content_length_sets_header_value :
  forall (request : bytes),
    (startswith GET request || startswith HEAD request = true ->
     update_content_length request = request)
    /\ (contains CRLFCRLF request = false ->
        update_content_length request = request)
    /\ (fst (fst (rpartition CRLFCRLF request)) = [] ->
        update_content_length request = request)
    /\ (forall header m body,
           startswith GET request || startswith HEAD request = false ->
           rpartition CRLFCRLF request = (header, m, body) ->
           header <> [] ->
           exists header',
             update_content_length request = header' ++ CRLFCRLF ++ body
             /\ rpartition CRLFCRLF (update_content_length request)
                = (header', CRLFCRLF, body)
             /\ header_value_is header' (List.length body)
             /\ (has_content_length_header header ->
                 has_content_length_header header')
             /\ (icontains content_length_name header = false ->
                 has_content_length_header header'
                 /\ header' = header ++ CRLF
                              ++ content_length_line (List.length body))).
Proof.
  intros request. split.
  { intros H. unfold update_content_length. now rewrite H. }
  split; [apply update_unchanged_without_separator|].
  split; [apply update_unchanged_without_header|].
  intros header m body Hget Hpart Hne.
  destruct (update_result request header m body Hget Hpart Hne)
    as (header' & Hout & Hbody & _ & Hnames & Hnew).
  exists header'. split; [exact Hout|]. split; [exact Hbody|].
  split; [now apply names_length_header_value|].
  destruct (icontains content_length_name header) eqn:E; subst header'.
  - split; [apply header_kept | discriminate].
  - split; intros _; [|split; [|reflexivity]]; apply header_appended.
Qed.

Lemma update_content_length_sets_header_value_witness :
  exists header',
    update_content_length sample_request
    = header' ++ CRLFCRLF ++ b "name={{7*7}}"
    /\ header_value_is header' 12
    /\ has_content_length_header header'.
Proof.
  destruct (proj2 (proj2 (proj2
    (update_content_length_sets_header_value sample_request)))
    (b "POST /x HTTP/1.1" ++ CRLF ++ b "content-LENGTH: 0" ++ CRLF
     ++ b "Host: x") CRLFCRLF (b "name={{7*7}}")
    eq_refl eq_refl ltac:(discriminate))
    as (header' & Hout & _ & Hvalue & Hkeeps & _).
  exists header'. split; [exact Hout|]. split; [exact Hvalue|].
  apply Hkeeps. exists 18%nat. split; reflexivity.
Defined.

(** C8 (as stated, refuted): a request that does not start with [GET] or
    [HEAD] and does carry the blank line, with nothing before it, comes
    back unchanged and without any [Content-Length:]. *)
Lemma update_content_length_keeps_headless_request :
  startswith GET (CRLFCRLF ++ b "abc") = false
  /\ startswith HEAD (CRLFCRLF ++ b "abc") = false
  /\ contains CRLFCRLF (CRLFCRLF ++ b "abc") = true
  /\ rpartition CRLFCRLF (CRLFCRLF ++ b "abc") = ([], CRLFCRLF, b "abc")
  /\ update_content_length (CRLFCRLF ++ b "abc") = CRLFCRLF ++ b "abc"
  /\ icontains content_length_name
       (update_content_length (CRLFCRLF ++ b "abc")) = false.
Proof. repeat split. Qed.

End ContentLengthFacts.

Module SubmitterFacts.
Import Py Submitter.
Local Open Scope py_scope.

Section WithOutside.
Context `{Outside}.

(** *** The monad *)

Lemma bind_ret_l {S A B} (a : A) (k : A -> M S B) : bind (ret a) k = k a.
Proof. reflexivity. Qed.

Lemma bind_run {S A B} (m : M S A) (k : A -> M S B) s a s' :
  m s = (Returned a, s') -> bind m k s = k a s'.
Proof. intros E. unfold bind. now rewrite E. Qed.

Lemma bind_run_raised {S A B} (m : M S A) (k : A -> M S B) s e s' :
  m s = (Raised e, s') -> bind m k s = (Raised e, s').
Proof. intros E. unfold bind. now rewrite E. Qed.

Lemma bind_bind_run {S A B C} (m : M S A) (k : A -> M S B) (k' : B -> M S C) s :
  bind (bind m k) k' s = bind m (fun a => bind (k a) k') s.
Proof. unfold bind. destruct (m s) as [[a|e] s']; reflexivity. Qed.

(** *** Tamperers *)

Lemma with_tamperers_fields ts self :
  tamperers (with_tamperers ts self) = tamperers self ++ ts
  /\ customizable (with_tamperers ts self) = customizable self
  /\ extra_params (with_tamperers ts self) = extra_params self
  /\ raw (with_tamperers ts self) = raw self.
Proof.
  revert self. induction ts as [|t ts IH]; intros self; simpl.
  - now rewrite app_nil_r.
  - destruct (IH (add_tamperer t self)) as (-> & -> & -> & ->). simpl.
    now rewrite <- app_assoc.
Qed.

(** The loop of [submit] runs the chain. *)
Lemma apply_tamperers_chain ts :
  forall (acc : M Trace string) tr,
    bind acc (apply_tamperers ts) tr
    = fold_left (fun acc t => bind acc t) ts acc tr.
Proof.
  induction ts as [|t ts IH]; intros acc tr; simpl.
  - unfold bind, ret. destruct (acc tr) as [[a|e] tr']; reflexivity.
  - rewrite <- IH. now rewrite bind_bind_run.
Qed.

Lemma apply_tamperers_is_chain ts payload tr :
  apply_tamperers ts payload tr = chain ts payload tr.
Proof.
  unfold chain. rewrite <- apply_tamperers_chain. reflexivity.
Qed.

Lemma chain_pure (fs : list (string -> string)) payload tr :
  chain (map (fun f p => ret (f p)) fs) payload tr
  = (Returned (fold_left (fun p f => f p) fs payload), tr).
Proof.
  rewrite <- apply_tamperers_is_chain. revert payload.
  induction fs as [|f fs IH]; intros payload; simpl; [reflexivity|].
  unfold bind, ret at 1. apply IH.
Qed.

Lemma submit_unfolded self payload tr payload' tr1 :
  (match tamperers self with
   | [] => ret payload
   | _ :: _ =>
       log "submitter" DEBUG "Applying tampers..." ;;;
       apply_tamperers (tamperers self) payload
   end) tr = (Returned payload', tr1) ->
  submit self payload tr
  = (let '(resp, tr2) :=
       submit_raw self payload'
         (tr1 ++ [Logged "submitter" DEBUG "Submit [blue]%s[/]"]) in
     (outcome_map (option_map unescaped) resp, tr2)).
Proof.
  intros E. unfold submit. rewrite (bind_run _ _ _ _ _ E).
  unfold bind at 1, log, emit.
  unfold bind.
  destruct (submit_raw self payload' _) as [[[resp|]|e] tr2]; reflexivity.
Qed.

(** C6: on a submitter whose tamperers were added one by one, [submit]
    runs them as a chain in that order, hands the outcome of the chain
    to [submit_raw], returns [None] exactly when [submit_raw] does, and
    otherwise returns the status code of [submit_raw]'s response with
    its text HTML-unescaped. *)
Theorem submit_chains_tamperers_then_unescapes :
  forall (ts : list Tamperer) (fresh : BaseSubmitter)
         (payload : string) (tr : Trace) (payload' : string) (tr1 : Trace),
    tamperers fresh = [] ->
    chain ts payload
      (match ts with
       | [] => tr
       | _ :: _ => tr ++ [Logged "submitter" DEBUG "Applying tampers..."]
       end)
    = (Returned payload', tr1) ->
    let self := with_tamperers ts fresh in
    let sent :=
      submit_raw self payload'
        (tr1 ++ [Logged "submitter" DEBUG "Submit [blue]%s[/]"]) in
    tamperers self = ts
    /\ submit self payload tr
       = (outcome_map (option_map unescaped) (fst sent), snd sent)
    /\ (fst (submit self payload tr) = Returned None
        <-> fst sent = Returned None)
    /\ (forall resp,
           fst sent = Returned (Some resp) ->
           fst (submit self payload tr)
           = Returned (Some {| status_code := status_code resp;
                               text := html_unescape (text resp) |})).
Proof.
  intros ts fresh payload tr payload' tr1 Hfresh Hchain self sent.
  destruct (with_tamperers_fields ts fresh) as (Hts & _ & _ & _).
  fold self in Hts. rewrite Hfresh in Hts. simpl in Hts.
  assert (submit self payload tr
          = (outcome_map (option_map unescaped) (fst sent), snd sent)) as E.
  { rewrite (submit_unfolded self payload tr payload' tr1).
    - subst sent. now destruct (submit_raw self payload' _).
    - rewrite Hts. destruct ts as [|t ts']; [exact Hchain|].
      rewrite <- apply_tamperers_is_chain in Hchain.
      unfold bind at 1, log, emit. exact Hchain. }
  split; [exact Hts|]. split; [exact E|]. rewrite E. simpl. split.
  - destruct (fst sent) as [[resp|]|e]; simpl; split; congruence.
  - intros resp ->. reflexivity.
Qed.

(** *** [PathSubmitter] *)

Lemma requests_app tr tr' : requests (tr ++ tr') = requests tr ++ requests tr'.
Proof. unfold requests. apply flat_map_app. Qed.

Lemma PathSubmitter_returns url requester ts tr :
  exists tr',
    PathSubmitter url requester ts tr
    = (Returned
         (with_tamperers ts
            {| tamperers := []; customizable := true; extra_params := ∅;
               raw := PathSubmitter_submit_raw (with_slash url) requester |}),
       tr')
    /\ requests tr' = requests tr.
Proof.
  unfold PathSubmitter, with_slash.
  destruct (PyStr.endswith "/" url); simpl.
  - exists tr. split; reflexivity.
  - eexists. split; [reflexivity|].
    rewrite requests_app. simpl. apply app_nil_r.
Qed.

Lemma path_submit_raw_blocked url requester extra payload tr :
  blocked_in_path payload = true ->
  PathSubmitter_submit_raw url requester extra payload tr
  = (Returned None,
     tr ++ [Logged "submitter" INFO
              "Don't submit [yellow]%s[/] because it can't be in the path."]).
Proof.
  intros Hb. unfold PathSubmitter_submit_raw.
  fold (blocked_in_path payload). now rewrite Hb.
Qed.

Lemma path_submit_raw_sent url requester extra payload tr :
  blocked_in_path payload = false ->
  let r := {| method := "GET"; url := url +:+ quote payload;
              params := extra; data := ∅ |} in
  PathSubmitter_submit_raw url requester extra payload tr
  = (Returned (requester tr r),
     tr ++ [Requested r]
        ++ [CalledBack (PathSubmitted url payload (requester tr r))]).
Proof.
  intros Hb r. unfold PathSubmitter_submit_raw.
  fold (blocked_in_path payload). rewrite Hb.
  unfold bind, request, emit. fold r. rewrite <- app_assoc.
  destruct (requester tr r) as [[code body]|]; reflexivity.
Qed.

(** C9: [submit_raw] of a [PathSubmitter] returns [None] and issues no
    request when the payload contains a slash, two dots, a space or a
    percent sign; for any other payload it issues one request, a [GET]
    to the stored URL (the given one, ending with a slash) followed by
    the quoted payload, and returns the requester's answer. *)
Theorem path_submitter_refuses_or_requests_once :
  forall (url : string) (requester : HTTPRequester) (ts : list Tamperer)
         (tr0 tr1 : Trace) (self later : BaseSubmitter)
         (payload : string) (tr : Trace),
    PathSubmitter url requester ts tr0 = (Returned self, tr1) ->
    raw later = raw self ->
    let sent := submit_raw later payload tr in
    let r := {| method := "GET";
                url := with_slash url +:+ quote payload;
                params := extra_params later;
                data := ∅ |} in
    (blocked_in_path payload = true ->
     fst sent = Returned None /\ requests (snd sent) = requests tr)
    /\ (blocked_in_path payload = false ->
        fst sent = Returned (requester tr r)
        /\ requests (snd sent) = requests tr ++ [r]).
Proof.
  intros url requester ts tr0 tr1 self later payload tr Hinit Hraw sent r.
  destruct (PathSubmitter_returns url requester ts tr0) as (tr' & E & _).
  rewrite E in Hinit. injection Hinit as <- <-.
  destruct (with_tamperers_fields ts
              {| tamperers := []; customizable := true; extra_params := ∅;
                 raw := PathSubmitter_submit_raw (with_slash url) requester |})
    as (_ & _ & _ & Hr).
  rewrite Hr in Hraw. simpl in Hraw.
  subst sent. unfold submit_raw. rewrite Hraw. split; intros Hb.
  - rewrite (path_submit_raw_blocked _ _ _ _ _ Hb). simpl.
    split; [reflexivity|]. rewrite requests_app. simpl. apply app_nil_r.
  - rewrite (path_submit_raw_sent _ _ _ _ _ Hb). simpl.
    split; [reflexivity|]. rewrite !requests_app. simpl.
    now rewrite ?app_nil_r.
Qed.

End WithOutside.

Import Samples.

Lemma submit_chains_tamperers_then_unescapes_witness :
  submit
    (with_tamperers
       [fun p => ret (p +:+ "a"); fun p => ret (p +:+ "b")]
       {| tamperers := []; customizable := false; extra_params := ∅;
          raw := sample_raw |})
    "x" []
  = (Returned (Some (mkHTTPResponse 200 "xab")),
     [Logged "submitter" DEBUG "Applying tampers...";
      Logged "submitter" DEBUG "Submit [blue]%s[/]"]).
Proof.
  refine (proj1 (proj2
    (submit_chains_tamperers_then_unescapes
       [fun p => ret (p +:+ "a"); fun p => ret (p +:+ "b")]
       {| tamperers := []; customizable := false; extra_params := ∅;
          raw := sample_raw |}
       "x" [] "xab" [Logged "submitter" DEBUG "Applying tampers..."]
       eq_refl eq_refl))).
Defined.

Lemma path_submitter_refuses_or_requests_once_witness :
  (fst (submit_raw sample_path_submitter "{{7*7}} x" []) = Returned None
   /\ requests (snd (submit_raw sample_path_submitter "{{7*7}} x" [])) = [])
  /\ requests (snd (submit_raw sample_path_submitter "{{7*7}}" []))
     = [ {| method := "GET"; url := "http://target/view/{{7*7}}";
            params := ∅; data := ∅ |} ].
Proof.
  split.
  - exact (proj1
      (path_submitter_refuses_or_requests_once
         "http://target/view" echo [] []
         [Logged "submitter" WARNING
            "PathSubmitter get a url that's not ends with '/', appending it."]
         sample_path_submitter sample_path_submitter "{{7*7}} x" []
         eq_refl eq_refl) eq_refl).
  - exact (proj2 (proj2
      (path_submitter_refuses_or_requests_once
         "http://target/view" echo [] []
         [Logged "submitter" WARNING
            "PathSubmitter get a url that's not ends with '/', appending it."]
         sample_path_submitter sample_path_submitter "{{7*7}}" []
         eq_refl eq_refl) eq_refl)).
Defined.

End SubmitterFacts.

Module CliFacts.
Import Grammar Py Submitter Cli SubmitterFacts.
Local Open Scope py_scope.

Section WithOutside.
Context `{Outside}.

(** *** [do_submit_cmdexec] when no payload is generated *)

(** C7 (as the code behaves): with a generator that finds no payload, a
    plain command and a freshly built [FormSubmitter], the function logs
    the warning, submits nothing, and then raises [KeyError]: it deletes
    the extra parameter [eval_this], which only the [@findflag] command
    sets. *)
Theorem failed_generation_raises_key_error :
  forall (url : string) (form : Form) (field : string)
         (requester : HTTPRequester) (tr : Trace),
    let self := FormSubmitter url form field requester [] in
    do_submit_cmdexec "id" no_payload (mkSession self tr)
    = (Raised (KeyError "eval_this"),
       mkSession self (tr ++ [failed_warning]))
    /\ requests (tr ++ [failed_warning]) = requests tr.
Proof.
  intros. split; [reflexivity|].
  rewrite requests_app. simpl. apply app_nil_r.
Qed.

(** Where the claim does hold: a submitter that takes no extra
    parameters, or one that carries [eval_this]. *)
Lemma failed_generation_returns_empty self tr c rest will_print :
  c <> "@"%char ->
  forall generate : generator,
    generate OS_POPEN_READ [Str (String c rest)] = (None, will_print) ->
    customizable self = false \/ is_Some (extra_params self !! "eval_this") ->
    exists self',
      do_submit_cmdexec (String c rest) generate (mkSession self tr)
      = (Returned "", mkSession self' (tr ++ [failed_warning]))
      /\ raw self' = raw self.
Proof.
  intros Hc generate Hgen Hself.
  unfold do_submit_cmdexec, parse_command.
  apply Ascii.eqb_neq in Hc. rewrite Hc.
  rewrite bind_ret_l, Hgen.
  unfold bind, on_trace, the_submitter, log, emit, when, ret,
    do_unset_extra_param, unset_extra_param.
  cbn [submitter trace].
  destruct (customizable self) eqn:Ec.
  - destruct Hself as [|[v Hv]]; [discriminate|].
    cbn [submitter trace]. rewrite Hv.
    eexists. split; reflexivity.
  - eexists. split; reflexivity.
Qed.

(** *** [is_form_has_response] *)

Lemma choice_returns tr :
  exists c tr',
    choice ascii_lowercase tr = (Returned c, tr') /\ In c ascii_lowercase.
Proof.
  unfold choice. do 2 eexists. split; [reflexivity|].
  apply nth_In. apply Nat.mod_upper_bound. discriminate.
Qed.

Lemma choices_returns k :
  forall tr,
    exists letters tr',
      choices ascii_lowercase k tr = (Returned letters, tr')
      /\ List.length letters = k
      /\ Forall (fun c => In c ascii_lowercase) letters.
Proof.
  induction k as [|k IH]; intros tr.
  - exists [], tr. repeat split. constructor.
  - destruct (choice_returns tr) as (c & tr1 & Ec & Hc).
    destruct (IH tr1) as (cs & tr2 & Ecs & Hlen & Hcs).
    exists (c :: cs), tr2. split; [|split].
    + cbn [choices]. rewrite (bind_run _ _ _ _ _ Ec).
      now rewrite (bind_run _ _ _ _ _ Ecs).
    + simpl. now rewrite Hlen.
    + now constructor.
Qed.

Lemma string_of_list_ascii_length l :
  String.length (string_of_list_ascii l) = List.length l.
Proof. induction l as [|c l IH]; simpl; [reflexivity | now rewrite IH]. Qed.

Lemma for_each_length {A B} (f : A -> M Trace B) xs :
  forall tr ys tr',
    for_each f xs tr = (Returned ys, tr') -> List.length ys = List.length xs.
Proof.
  induction xs as [|x xs IH]; intros tr ys tr'; cbn [for_each].
  - intros [= <- _]. reflexivity.
  - unfold bind at 1. destruct (f x tr) as [[y|e] tr1]; [|discriminate].
    unfold bind. destruct (for_each f xs tr1) as [[ys'|e] tr2] eqn:E;
      [|discriminate].
    intros [= <- _]. simpl. f_equal. exact (IH _ _ _ E).
Qed.

Lemma for_each_returns {A B} (f : A -> M Trace B) xs :
  (forall x tr, exists y tr', f x tr = (Returned y, tr')) ->
  forall tr, exists ys tr', for_each f xs tr = (Returned ys, tr').
Proof.
  intros Hf. induction xs as [|x xs IH]; intros tr; cbn [for_each].
  - do 2 eexists. reflexivity.
  - destruct (Hf x tr) as (y & tr1 & Ey).
    destruct (IH tr1) as (ys & tr2 & Eys).
    exists (y :: ys), tr2. rewrite (bind_run _ _ _ _ _ Ey).
    now rewrite (bind_run _ _ _ _ _ Eys).
Qed.

Lemma responds_true_iff marker result1 musterror :
  responds marker result1 musterror = true
  <-> (exists r, result1 = Some r /\ PyStr.contains marker (text r) = true)
      /\ (exists r, In (Some r) musterror
                    /\ PyStr.contains marker (text r) = false).
Proof.
  unfold responds. destruct result1 as [r1|].
  - rewrite andb_true_iff, existsb_exists. split.
    + intros [Hr ([r|] & Hin & Hneg)]; [|discriminate].
      apply negb_true_iff in Hneg.
      split; [exists r1; now split | exists r; now split].
    + intros [(r & [= <-] & Hr) (r' & Hin & Hneg)]. split; [exact Hr|].
      exists (Some r'). split; [exact Hin | now apply negb_true_iff].
  - split; [discriminate|]. intros [(r & Hr & _) _]. discriminate.
Qed.

(** What a probe that returned has done. *)
Lemma probe_field_inv url form requester tamper_cmd field tr
      marker result1 musterror tr1 :
  probe_field url form requester tamper_cmd field tr
  = (Returned (marker, result1, musterror), tr1) ->
  is_marker marker
  /\ List.length musterror = 3%nat
  /\ exists trA trB,
       choices ascii_lowercase 4 tr
       = (Returned (list_ascii_of_string marker), trA)
       /\ submit (field_submitter url form requester tamper_cmd field)
            marker trA
          = (Returned result1, trB)
       /\ for_each
            (fun pattern =>
               submit (field_submitter url form requester tamper_cmd field)
                 (pattern +:+ marker))
            ["{{"; "{%"; "{#"] trB
          = (Returned musterror, tr1).
Proof.
  unfold probe_field.
  fold (field_submitter url form requester tamper_cmd field).
  destruct (choices_returns 4 tr) as (letters & trA & Ec & Hlen & Hlow).
  rewrite (bind_run _ _ _ _ _ Ec).
  set (sub := field_submitter url form requester tamper_cmd field).
  set (marker0 := string_of_list_ascii letters).
  unfold bind at 1. destruct (submit sub marker0 trA) as [[r1|e] trB] eqn:Es;
    [|discriminate].
  unfold bind at 1.
  destruct (for_each _ control_patterns trB) as [[ms|e] trC] eqn:Ef;
    [|discriminate].
  intros [= <- <- <- <-].
  assert (list_ascii_of_string marker0 = letters) as Hl
    by apply list_ascii_of_string_of_list_ascii.
  split; [|split].
  - split; [subst marker0; now rewrite string_of_list_ascii_length|].
    now rewrite Hl.
  - exact (for_each_length _ _ _ _ _ Ef).
  - exists trA, trB. rewrite Hl. now split.
Qed.

Section Loop.
Variables (url : string) (form : Form) (requester : HTTPRequester)
          (tamper_cmd : option string).

Abbreviation probe := (probe_field url form requester tamper_cmd).
Abbreviation after := (after_probing url form requester tamper_cmd).

(** The loop returns [True] exactly when it reaches a field whose
    probes make the condition hold. *)
Lemma probe_fields_true_iff fields :
  forall tr answer tr',
    probe_fields url form requester tamper_cmd fields tr
    = (Returned answer, tr') ->
    (answer = true
     <-> exists pre field post marker result1 musterror tr1,
           fields = pre ++ field :: post
           /\ probe field (after pre tr)
              = (Returned (marker, result1, musterror), tr1)
           /\ responds marker result1 musterror = true).
Proof.
  induction fields as [|f fields IH]; intros tr answer tr' Hrun.
  - injection Hrun as <- <-. split; [discriminate|].
    intros (pre & field & post & _ & _ & _ & _ & Hsplit & _).
    now destruct pre.
  - cbn [probe_fields] in Hrun. unfold bind in Hrun.
    fold probe in Hrun.
    destruct (probe f tr) as [[[[marker r1] ms]|e] tr1] eqn:Ep;
      [|discriminate].
    destruct (responds marker r1 ms) eqn:Er.
    + injection Hrun as <- <-. split; [intros _|reflexivity].
      exists [], f, fields, marker, r1, ms, tr1. now repeat split.
    + rewrite (IH _ _ _ Hrun). split.
      * intros (pre & field & post & m & r & l & t & -> & Hp & Hr).
        exists (f :: pre), field, post, m, r, l, t.
        split; [reflexivity|]. split; [|exact Hr].
        unfold after, after_probing in Hp |- *. cbn [fold_left].
        fold probe. now rewrite Ep.
      * intros (pre & field & post & m & r & l & t & Hsplit & Hp & Hr).
        destruct pre as [|f' pre]; injection Hsplit as <- ->.
        -- unfold after, after_probing in Hp. cbn [fold_left] in Hp.
           rewrite Ep in Hp. injection Hp as <- <- <- <-. congruence.
        -- exists pre, field, post, m, r, l, t.
           split; [reflexivity|]. split; [|exact Hr].
           unfold after, after_probing in Hp |- *.
           cbn [fold_left] in Hp. fold probe in Hp.
           now rewrite Ep in Hp.
Qed.

(** Without a tamper command nothing in the loop can raise. *)
Lemma form_submit_returns field payload tr :
  exists r tr',
    submit (FormSubmitter url form field requester []) payload tr
    = (Returned r, tr').
Proof.
  unfold submit, submit_raw, FormSubmitter, FormSubmitter_submit_raw.
  cbn [fold_left tamperers raw extra_params].
  unfold bind, ret, log, emit, Py.request.
  destruct (requester _ _) as [resp|]; do 2 eexists; reflexivity.
Qed.

Lemma probe_field_returns field tr :
  tamperers_of tamper_cmd = [] ->
  exists probed tr', probe field tr = (Returned probed, tr').
Proof.
  intros Hno. unfold probe, probe_field. rewrite Hno. cbn [fold_left].
  destruct (choices_returns 4 tr) as (letters & trA & Ec & _).
  rewrite (bind_run _ _ _ _ _ Ec).
  destruct (form_submit_returns field (string_of_list_ascii letters) trA)
    as (r1 & trB & Es).
  rewrite (bind_run _ _ _ _ _ Es).
  destruct (for_each_returns
              (fun pattern =>
                 submit (FormSubmitter url form field requester [])
                   (pattern +:+ string_of_list_ascii letters))
              control_patterns
              (fun x t => form_submit_returns field _ t) trB)
    as (ms & trC & Ef).
  rewrite (bind_run _ _ _ _ _ Ef). do 2 eexists. reflexivity.
Qed.

Lemma probe_fields_returns fields :
  tamperers_of tamper_cmd = [] ->
  forall tr,
    exists answer tr',
      probe_fields url form requester tamper_cmd fields tr
      = (Returned answer, tr').
Proof.
  intros Hno. induction fields as [|f fields IH]; intros tr.
  - do 2 eexists. reflexivity.
  - cbn [probe_fields].
    destruct (probe_field_returns f tr Hno)
      as ([[marker r1] ms] & tr1 & Ep).
    unfold probe in Ep. rewrite (bind_run _ _ _ _ _ Ep).
    destruct (responds marker r1 ms); [do 2 eexists; reflexivity|].
    apply IH.
Qed.

End Loop.


End WithOutside.

Import Samples.


End CliFacts.

(* ===================================================================== *)
(** * Part III: further properties of the same code                       *)
(* ===================================================================== *)

Module MoreRulesFacts.
Import Grammar Rules RuleIndex Samples.

(** X1: the dotted-access rules [gen_attribute_normal1] and
    [gen_item_normal1] answer with the Unsatisfiable candidate exactly for
    the empty name and for names whose first character is not a letter or
    an underscore; for every other name they answer with the dotted access
    that carries the name as it is. *)
Theorem dotted_rules_decline_on_first_character :
  forall (precedence : string -> Z) (obj : target) (name : string),
    let declined :=
      name = EmptyString
      \/ exists c rest, name = String c rest /\ is_name_start c = false in
    (gen_attribute_normal1 precedence obj name = [UNSATISFIED] <-> declined)
    /\ (gen_item_normal1 precedence obj name = [UNSATISFIED] <-> declined)
    /\ (~ declined ->
        gen_attribute_normal1 precedence obj name
        = [EXPRESSION (precedence "attribute")
             [ENCLOSE_UNDER (precedence "attribute") obj;
              LITERAL "."; LITERAL name]]
        /\ gen_item_normal1 precedence obj name
           = [EXPRESSION (precedence "item")
                [ENCLOSE_UNDER (precedence "item") obj;
                 LITERAL "."; LITERAL name]]).
Proof.
  intros precedence obj name declined. subst declined.
  unfold gen_attribute_normal1, gen_item_normal1.
  destruct name as [|c rest]; simpl.
  - split; [split; [now left | reflexivity]|].
    split; [split; [now left | reflexivity]|].
    intros Hn. elim Hn. now left.
  - assert (is_name_start c = false
            <-> (String c rest = EmptyString
                 \/ exists c' rest',
                      String c rest = String c' rest'
                      /\ is_name_start c' = false)) as Hd.
    { split; [intros Hc; right; eauto|].
      intros [Hf | (c' & rest' & [= <- <-] & Hc)]; [discriminate | exact Hc]. }
    destruct (is_name_start c) eqn:E; simpl.
    + split; [split; [discriminate | intros Hx; apply Hd in Hx; discriminate]|].
      split; [split; [discriminate | intros Hx; apply Hd in Hx; discriminate]|].
      intros _. split; reflexivity.
    + split; [split; [intros _; now apply Hd | reflexivity]|].
      split; [split; [intros _; now apply Hd | reflexivity]|].
      intros Hn. elim Hn. now apply Hd.
Qed.

Lemma unfold_chained_plain fuel t :
  is_chained t = false -> unfold_chained fuel t = t.
Proof. destruct fuel, t; simpl; intros Hc; try reflexivity; discriminate. Qed.

Lemma unfold_chained_result_plain fuel :
  forall t, is_chained t = false -> is_chained (unfold_chained fuel t) = false.
Proof. intros t Hc. now rewrite unfold_chained_plain. Qed.

Lemma unfold_chained_add n :
  forall m t,
    unfold_chained (n + m) t = unfold_chained m (unfold_chained n t).
Proof.
  induction n as [|n IH]; intros m t; [reflexivity|].
  destruct t; try (simpl; now rewrite unfold_chained_plain).
  cbn [Nat.add unfold_chained].
  destruct steps as [|[k name] steps]; simpl; apply IH.
Qed.

Lemma unfold_chained_prefix s1 :
  forall obj s2,
    unfold_chained (List.length s1) (CHAINED_ATTRIBUTE_ITEM obj (s1 ++ s2))
    = CHAINED_ATTRIBUTE_ITEM (fold_left step s1 obj) s2.
Proof.
  induction s1 as [|[k name] s1 IH]; intros obj s2; [reflexivity|].
  simpl. apply IH.
Qed.

(** X2: applying the chained rule again and again composes: fuel adds up,
    after as many applications as there are steps in a prefix of the list
    that prefix is folded into the object and the other steps are still
    carried, and one more application of the rule to a requirement without
    steps hands out the folded object itself. *)
Theorem chained_unfolding_composes :
  forall (obj : target) (s1 s2 : list (access_kind * string)) (n m : nat),
    unfold_chained (n + m) (CHAINED_ATTRIBUTE_ITEM obj (s1 ++ s2))
    = unfold_chained m (unfold_chained n (CHAINED_ATTRIBUTE_ITEM obj (s1 ++ s2)))
    /\ unfold_chained (List.length s1) (CHAINED_ATTRIBUTE_ITEM obj (s1 ++ s2))
       = CHAINED_ATTRIBUTE_ITEM (fold_left step s1 obj) s2
    /\ unfold_chained (List.length s1 + m) (CHAINED_ATTRIBUTE_ITEM obj (s1 ++ s2))
       = unfold_chained m (CHAINED_ATTRIBUTE_ITEM (fold_left step s1 obj) s2)
    /\ gen_chained_attribute_item_normal (fold_left step (s1 ++ s2) obj) []
       = [fold_left step s2 (fold_left step s1 obj)].
Proof.
  intros obj s1 s2 n m. split; [apply unfold_chained_add|].
  split; [apply unfold_chained_prefix|]. split.
  - now rewrite unfold_chained_add, unfold_chained_prefix.
  - simpl. now rewrite fold_left_app.
Qed.

Ltac rule_cases H :=
  repeat (destruct H as [H | H]; [subst | ]); try destruct H.

(** X3: every rule of the file that takes an object and a name answers
    with exactly one candidate, which is the Unsatisfiable marker or an
    expression at one of the five levels the file looks up; the chained
    rule answers with exactly one candidate as well.  No rule answers with
    an empty list. *)
Theorem every_rule_emits_one_candidate :
  forall (precedence : string -> Z)
         (tfp : string -> repl_dict -> list target)
         (rule : target -> string -> list target)
         (obj : target) (name : string)
         (steps : list (access_kind * string)),
    In rule (named_rules precedence tfp) ->
    (exists cand,
        rule obj name = [cand]
        /\ (cand = UNSATISFIED
            \/ exists level ts,
                 In level level_names
                 /\ cand = EXPRESSION (precedence level) ts))
    /\ exists cand, gen_chained_attribute_item_normal obj steps = [cand].
Proof.
  intros precedence tfp rule obj name steps Hrule. split.
  - unfold named_rules in Hrule. simpl in Hrule.
    rule_cases Hrule;
      try (unfold gen_attribute_normal1, gen_item_normal1,
             gen_attribute_map3, gen_attribute_map4;
           match goal with
           | |- context [if ?b then _ else _] => destruct b
           end);
      eexists; (split; [reflexivity|]);
      first
        [ left; reflexivity
        | right; do 2 eexists; split; [|reflexivity]; simpl; tauto ].
  - destruct steps as [|[k n] steps]; eexists; reflexivity.
Qed.

Lemma every_rule_emits_one_candidate_witness :
  exists cand,
    gen_item_getfunc2 sample_precedence (FLASK_CONTEXT_VAR "request") "values"
    = [cand]
    /\ (cand = UNSATISFIED
        \/ exists level ts,
             In level level_names
             /\ cand = EXPRESSION (sample_precedence level) ts).
Proof.
  refine (proj1
    (every_rule_emits_one_candidate sample_precedence
       (fun _ _ => [])
       (gen_item_getfunc2 sample_precedence)
       (FLASK_CONTEXT_VAR "request") "values" [] _)).
  unfold named_rules. simpl. tauto.
Defined.

End MoreRulesFacts.

Module MoreContentLengthFacts.
Import PyBytes Submitter SubmitterMore BytesFacts ContentLengthFacts Samples.

Lemma names_length_skipn h n k :
  names_length h n -> names_length (skipn k h) n.
Proof.
  intros Hh i Hi. rewrite skipn_skipn in Hi |- *. now apply Hh.
Qed.

Lemma digits_not_lf d : Forall not_lf (digits d).
Proof. induction d; simpl; constructor; try assumption; discriminate. Qed.

Lemma dot_star_run run rest :
  Forall not_lf run -> ends_line rest ->
  dot_star (run ++ rest) = List.length run.
Proof.
  intros Hrun Hrest. induction Hrun as [|x run Hx Hrun IH]; simpl.
  - destruct Hrest as [-> | [r ->]]; reflexivity.
  - destruct (Byte.eqb x LF) eqn:E; [|now rewrite IH].
    apply byte_eqb_eq in E. contradiction.
Qed.

(** On a line the function wrote, the pattern matches the line and no
    more. *)
Lemma match_written_line n rest :
  ends_line rest ->
  match_content_length (content_length_line n ++ rest)
  = Some (List.length (content_length_line n)).
Proof.
  intros Hrest. unfold match_content_length. rewrite line_starts. f_equal.
  unfold content_length_line.
  change content_length_prefix with (content_length_name ++ [x20]).
  rewrite <- !app_assoc.
  rewrite skipn_app, skipn_all, Nat.sub_diag. cbn [skipn app].
  change (x20 :: str_of_nat n ++ rest) with ((x20 :: str_of_nat n) ++ rest).
  rewrite dot_star_run; [|constructor; [discriminate | apply digits_not_lf]
                         | exact Hrest].
  rewrite !length_app. simpl. lia.
Qed.

Lemma subn_written_line n rest :
  ends_line rest ->
  subn_go (content_length_line n) 0 (content_length_line n ++ rest)
  = (content_length_line n ++ fst (subn_go (content_length_line n) 0 rest),
     S (snd (subn_go (content_length_line n) 0 rest))).
Proof.
  intros Hend. pose proof (match_written_line n rest Hend) as E.
  remember (content_length_line n) as line eqn:Hl.
  assert (skipn (List.length line) (line ++ rest) = rest) as Hskip
    by now rewrite skipn_app, skipn_all, Nat.sub_diag.
  destruct (line_head n) as (tail & Htail & _). rewrite <- Hl in Htail.
  destruct line as [|c line']; [discriminate|].
  cbn [app] in E, Hskip |- *.
  rewrite (subn_matched _ _ _ _ E). now rewrite Hskip.
Qed.

(** A header whose mentions all read right is left as it is by the
    substitution. *)
Lemma subn_fixed n :
  forall len h, (List.length h <= len)%nat ->
    names_length h n ->
    fst (subn_go (content_length_line n) 0 h) = h.
Proof.
  induction len as [|len IH]; intros h Hlen Hh.
  - destruct h; [reflexivity | simpl in Hlen; lia].
  - destruct h as [|c rest]; [reflexivity|].
    destruct (match_content_length (c :: rest)) as [m|] eqn:E.
    + destruct (match_content_length_some _ _ E) as [Hs _].
      destruct (Hh O Hs) as (rest' & Hline & Hend). cbn [skipn] in Hline.
      pose proof (names_length_skipn _ _ (List.length (content_length_line n)) Hh)
        as Hk.
      rewrite Hline in Hlen, Hk |- *. clear Hline E Hs Hh.
      rewrite skipn_app, skipn_all, Nat.sub_diag in Hk. cbn [skipn app] in Hk.
      rewrite (subn_written_line _ _ Hend). cbn [fst]. f_equal. apply IH.
      * rewrite length_app in Hlen.
        destruct (line_head n) as (tail & Htail & _). rewrite Htail in Hlen.
        simpl in Hlen. lia.
      * exact Hk.
    + rewrite (subn_unmatched _ _ _ E). cbn [fst]. f_equal. apply IH.
      * simpl in Hlen. lia.
      * exact (names_length_skipn _ _ 1 Hh).
Qed.

Lemma update_fixed request header m body :
  startswith GET request || startswith HEAD request = false ->
  rpartition CRLFCRLF request = (header, m, body) ->
  icontains content_length_name header = true ->
  names_length header (List.length body) ->
  update_content_length request = request.
Proof.
  intros Hget Hpart Hin Hnames.
  assert (header <> []) as Hne by (intros ->; discriminate).
  pose proof (rpartition_middle _ _ _ _ _ Hpart Hne) as ->.
  destruct (rpartition_found _ _ _ _ _ crlfcrlf_not_empty Hpart eq_refl)
    as (Hreq & _ & _).
  rewrite (update_with_header _ _ _ _ Hget Hpart Hne), Hin.
  unfold re_subn_content_length.
  rewrite (subn_fixed _ (List.length header) header (Nat.le_refl _) Hnames).
  now rewrite <- Hreq.
Qed.

(** X4: a request that does not start with [GET] or [HEAD] and whose header
    mentions [Content-Length:], every mention reading [Content-Length: n],
    [n] the byte length of the body, and standing directly before a line
    feed or at the end of the header, comes back from
    [update_content_length] byte for byte. *)
Theorem update_content_length_keeps_right_header :
  forall (request header m body : bytes),
    startswith GET request || startswith HEAD request = false ->
    rpartition CRLFCRLF request = (header, m, body) ->
    icontains content_length_name header = true ->
    names_length header (List.length body) ->
    update_content_length request = request.
Proof. exact update_fixed. Qed.

Lemma update_content_length_keeps_right_header_witness :
  update_content_length
    (b "POST /x HTTP/1.1" ++ CRLF ++ b "Content-Length: 3" ++ CRLFCRLF ++ b "a=1")
  = b "POST /x HTTP/1.1" ++ CRLF ++ b "Content-Length: 3" ++ CRLFCRLF ++ b "a=1".
Proof.
  apply (update_content_length_keeps_right_header
           (b "POST /x HTTP/1.1" ++ CRLF ++ b "Content-Length: 3"
            ++ CRLFCRLF ++ b "a=1")
           (b "POST /x HTTP/1.1" ++ CRLF ++ b "Content-Length: 3")
           CRLFCRLF (b "a=1")
           eq_refl eq_refl eq_refl).
  apply (appended_names_length (b "POST /x HTTP/1.1") 3). reflexivity.
Defined.

(** *** Twice is once *)

Lemma startswith_stop p a x t :
  Forall (fun q => q <> x) p ->
  startswith p (a ++ x :: t) = true -> startswith p a = true.
Proof.
  intros Hp. revert a. induction Hp as [|q p Hq Hp IH]; intros a Hs;
    [reflexivity|].
  destruct a as [|y a]; cbn [app startswith] in Hs |- *;
    apply andb_true_iff in Hs as [Hy Hs].
  - apply byte_eqb_eq in Hy. contradiction.
  - rewrite Hy. now apply IH.
Qed.

Lemma startswith_app_l p a t :
  startswith p a = true -> startswith p (a ++ t) = true.
Proof.
  intros Hs. apply startswith_app in Hs as [rest ->].
  apply startswith_app. exists (rest ++ t). now rewrite app_assoc.
Qed.

Lemma startswith_firstn p s :
  startswith p s = startswith p (firstn (List.length p) s).
Proof.
  revert s. induction p as [|a p IH]; intros [|x s]; simpl; try reflexivity.
  now rewrite IH.
Qed.

Lemma startswith_not_c p s :
  Forall not_c p -> startswith p s = true ->
  Forall not_c (firstn (List.length p) s).
Proof.
  intros Hp. revert s.
  induction Hp as [|a p Ha Hp IH]; intros [|x s] Hs; simpl in *;
    try discriminate; try (now constructor).
  apply andb_true_iff in Hs as [Hx Hs]. apply byte_eqb_eq in Hx. subst x.
  constructor; [exact Ha | now apply IH].
Qed.

(** A method name that is not at the head of the request is not at the
    head of what [update_content_length] makes of it. *)
Lemma updated_head p header body n :
  Forall (fun q => q <> CR) p -> Forall not_c p ->
  startswith p (header ++ CRLFCRLF ++ body) = false ->
  startswith p
    ((if icontains content_length_name header
      then fst (re_subn_content_length (content_length_line n) header)
      else header ++ CRLF ++ content_length_line n)
     ++ CRLFCRLF ++ body) = false.
Proof.
  intros Hcr Hc Hreq.
  match goal with |- ?lhs = false => destruct lhs eqn:E end; [|reflexivity].
  rewrite <- Hreq. symmetry. apply startswith_app_l.
  destruct (icontains content_length_name header).
  - apply (startswith_stop p _ CR (LF :: CR :: LF :: body) Hcr) in E.
    pose proof (startswith_not_c _ _ Hc E) as Hnc.
    unfold re_subn_content_length in Hnc, E. apply subn_firstn in Hnc.
    now rewrite startswith_firstn, <- Hnc, <- startswith_firstn.
  - rewrite <- !app_assoc in E.
    now apply (startswith_stop p header CR
                 (LF :: content_length_line n ++ CRLFCRLF ++ body) Hcr) in E.
Qed.

(** X5: [update_content_length] is idempotent: on what it returned it
    changes nothing. *)
Theorem update_content_length_twice_is_once :
  forall (request : bytes),
    update_content_length (update_content_length request)
    = update_content_length request.
Proof.
  intros request.
  destruct (startswith GET request || startswith HEAD request) eqn:Hget.
  { assert (update_content_length request = request) as Hu
      by (unfold update_content_length; now rewrite Hget).
    now rewrite Hu. }
  destruct (rpartition CRLFCRLF request) as [[header m] body] eqn:Hpart.
  destruct header as [|c header].
  { assert (update_content_length request = request) as Hu
      by (apply update_unchanged_without_header; now rewrite Hpart).
    now rewrite Hu. }
  assert (c :: header <> []) as Hne by discriminate.
  pose proof (rpartition_middle _ _ _ _ _ Hpart Hne) as ->.
  destruct (rpartition_found _ _ _ _ _ crlfcrlf_not_empty Hpart eq_refl)
    as (Hreq & Hlast & _).
  rewrite (update_with_header _ _ _ _ Hget Hpart Hne).
  set (n := List.length body).
  apply orb_false_iff in Hget as [Hg Hh]. rewrite Hreq in Hg, Hh.
  match goal with
  | |- update_content_length (?h ++ _) = _ => remember h as header' eqn:Hh'
  end.
  apply (update_fixed _ header' CRLFCRLF body).
  - apply orb_false_iff. subst header'. split; apply updated_head;
      try assumption; repeat constructor; discriminate.
  - now apply rpartition_after_prefix.
  - subst header'. destruct (icontains content_length_name (c :: header)) eqn:E.
    + now apply subn_result_names.
    + apply icontains_app_r, icontains_app_r, line_names.
  - subst header' n.
    destruct (icontains content_length_name (c :: header)) eqn:E.
    + now apply (subn_names_length _ (List.length (c :: header))).
    + now apply appended_names_length.
Qed.

End MoreContentLengthFacts.

Module MoreSubmitterFacts.
Import PyBytes Py Submitter SubmitterMore BytesFacts SubmitterFacts Samples.
Local Open Scope py_scope.

Section WithOutside.
Context `{Outside}.

(** X6: when a tamperer of the chain raises, [submit] raises the same
    exception and stops there: the trace is the one the chain left, so
    [submit_raw] is not run. *)
Theorem submit_raises_what_a_tamperer_raises :
  forall (ts : list Tamperer) (fresh : BaseSubmitter) (payload : string)
         (tr : Trace) (e : exn) (tr1 : Trace),
    tamperers fresh = [] ->
    chain ts payload (tr ++ [Logged "submitter" DEBUG "Applying tampers..."])
    = (Raised e, tr1) ->
    submit (with_tamperers ts fresh) payload tr = (Raised e, tr1).
Proof.
  intros ts fresh payload tr e tr1 Hfresh Hchain.
  destruct (with_tamperers_fields ts fresh) as (Hts & _ & _ & _).
  rewrite Hfresh in Hts. simpl in Hts.
  unfold submit. rewrite Hts.
  rewrite <- apply_tamperers_is_chain in Hchain.
  destruct ts as [|t ts]; [discriminate|].
  apply bind_run_raised. unfold bind at 1, log, emit. exact Hchain.
Qed.

(** *** Extra parameters *)

(** X7: [unset_extra_param] raises [KeyError] exactly when the key is not
    among the extra parameters; right after [set_extra_param] for the same
    key it succeeds, and the dict is the old one without the key, so the
    old one itself when the key was new.  Neither touches the tamperers or
    the class's [submit_raw]. *)
Theorem extra_param_set_then_unset :
  forall (self : BaseSubmitter) (k v : string),
    (unset_extra_param k self = Raised (KeyError k)
     <-> extra_params self !! k = None)
    /\ extra_params (set_extra_param k v self) !! k = Some v
    /\ exists self',
         unset_extra_param k (set_extra_param k v self) = Returned self'
         /\ extra_params self' = delete k (extra_params self)
         /\ (extra_params self !! k = None ->
             extra_params self' = extra_params self)
         /\ tamperers self' = tamperers self
         /\ customizable self' = customizable self
         /\ raw self' = raw self.
Proof.
  intros self k v. split; [|split].
  - unfold unset_extra_param.
    destruct (extra_params self !! k) eqn:E; split; congruence.
  - simpl. apply lookup_insert_eq.
  - unfold unset_extra_param, set_extra_param. cbn [extra_params].
    rewrite lookup_insert_eq. eexists. split; [reflexivity|].
    cbn [extra_params tamperers customizable raw].
    rewrite delete_insert_eq. split; [reflexivity|].
    split; [apply delete_id | now repeat split].
Qed.

(** *** A shell command as tamperer *)

Lemma run_shell_run shell_cmd input tr :
  run_shell shell_cmd input tr
  = (Returned (popen tr shell_cmd input), tr ++ [Spawned shell_cmd input]).
Proof. reflexivity. Qed.

Lemma shell_tamperer_requests shell_cmd payload tr :
  requests (snd (shell_tamperer shell_cmd payload tr)) = requests tr.
Proof.
  unfold shell_tamperer. unfold bind at 1. rewrite run_shell_run.
  destruct (popen tr shell_cmd payload) as [code out].
  destruct (negb (code =? 0)%Z); cbn [raise snd].
  - rewrite requests_app. apply app_nil_r.
  - unfold bind, when, log, emit, ret.
    destruct (PyStr.endswith _ out); cbn [snd];
      rewrite ?requests_app; simpl; now rewrite ?app_nil_r.
Qed.

Lemma shell_tamperer_fails shell_cmd payload tr :
  fst (popen tr shell_cmd payload) <> 0%Z ->
  shell_tamperer shell_cmd payload tr
  = (Raised (ValueError "Shell command return non-zero code"),
     tr ++ [Spawned shell_cmd payload])
  /\ requests (tr ++ [Spawned shell_cmd payload]) = requests tr.
Proof.
  intros Hcode. split.
  - unfold shell_tamperer. rewrite (bind_run _ _ _ _ _ (run_shell_run _ _ _)).
    destruct (popen tr shell_cmd payload) as [code out]. cbn [fst] in Hcode.
    apply Z.eqb_neq in Hcode. now rewrite Hcode.
  - rewrite requests_app. apply app_nil_r.
Qed.

Lemma shell_tamperer_succeeds shell_cmd payload tr :
  fst (popen tr shell_cmd payload) = 0%Z ->
  exists tr',
    shell_tamperer shell_cmd payload tr
    = (Returned (snd (popen tr shell_cmd payload)), tr')
    /\ requests tr' = requests tr.
Proof.
  intros Hcode.
  pose proof (shell_tamperer_requests shell_cmd payload tr) as Hr.
  unfold shell_tamperer in Hr |- *.
  rewrite (bind_run _ _ _ _ _ (run_shell_run _ _ _)) in Hr |- *.
  destruct (popen tr shell_cmd payload) as [code out]. cbn [fst snd] in *.
  subst code. cbn [Z.eqb negb] in Hr |- *.
  unfold bind, when, log, emit, ret in Hr |- *.
  destruct (PyStr.endswith _ out); eexists; (split; [reflexivity | exact Hr]).
Qed.

(** X8: on a [FormSubmitter] whose one tamperer is a shell command,
    [submit] raises [ValueError] and sends nothing when the command exits
    with a code other than 0; when it exits with 0, exactly one request is
    sent, the form filled with the command's output, as it is, in the
    target field. *)
Theorem shell_tampered_form_submit :
  forall (url : string) (form : Form) (field : string)
         (requester : HTTPRequester) (shell_cmd payload : string) (tr : Trace),
    let self :=
      FormSubmitter url form field requester [shell_tamperer shell_cmd] in
    let started := tr ++ [Logged "submitter" DEBUG "Applying tampers..."] in
    let code := fst (popen started shell_cmd payload) in
    let out := snd (popen started shell_cmd payload) in
    (code <> 0%Z ->
     fst (submit self payload tr)
     = Raised (ValueError "Shell command return non-zero code")
     /\ requests (snd (submit self payload tr)) = requests tr)
    /\ (code = 0%Z ->
        requests (snd (submit self payload tr))
        = requests tr ++ [fill_form url form {[ field := out ]} ∅]
        /\ exists resp, fst (submit self payload tr) = Returned resp).
Proof.
  intros url form field requester shell_cmd payload tr self started code out.
  assert (tamperers self = [shell_tamperer shell_cmd]) as Hts by reflexivity.
  assert (raw self = FormSubmitter_submit_raw url form field requester) as Hraw
    by reflexivity.
  assert (extra_params self = ∅) as Hextra by reflexivity.
  assert (forall k : string -> M Trace string,
             bind (log "submitter" DEBUG "Applying tampers...") (fun _ => k payload) tr
             = k payload started) as Hlog by reflexivity.
  split; intros Hcode.
  - destruct (shell_tamperer_fails shell_cmd payload started Hcode) as [Hf Hr].
    assert (submit self payload tr
            = (Raised (ValueError "Shell command return non-zero code"),
               started ++ [Spawned shell_cmd payload])) as E.
    { unfold submit. rewrite Hts. apply bind_run_raised.
      rewrite (Hlog (apply_tamperers [shell_tamperer shell_cmd])).
      cbn [apply_tamperers]. now apply bind_run_raised. }
    rewrite E. cbn [fst snd]. split; [reflexivity|].
    subst started. rewrite !requests_app. simpl. now rewrite !app_nil_r.
  - destruct (shell_tamperer_succeeds shell_cmd payload started Hcode)
      as (tr1 & Hs & Hr).
    fold out in Hs.
    rewrite (submit_unfolded self payload tr out tr1).
    + unfold submit_raw. rewrite Hraw, Hextra.
      unfold FormSubmitter_submit_raw, bind, emit, ret, Py.request.
      match goal with
      | |- context [requester ?t ?r] => destruct (requester t r) as [resp|]
      end;
        cbn [fst snd outcome_map];
        (split; [|eexists; reflexivity]);
        rewrite !requests_app, Hr; subst started; rewrite requests_app;
        simpl; now rewrite ?app_nil_r.
    + rewrite Hts. rewrite (Hlog (apply_tamperers [shell_tamperer shell_cmd])).
      cbn [apply_tamperers]. now rewrite (bind_run _ _ _ _ _ Hs).
Qed.

(** *** [PathSubmitter.__init__], [RequestSubmitter], [TCPSubmitter] *)

Lemma drop_app_length (a rest : string) :
  PyStr.drop (String.length a) (a +:+ rest) = rest.
Proof. induction a as [|c a IH]; simpl; [now destruct rest | exact IH]. Qed.

Lemma append_length (a rest : string) :
  String.length (a +:+ rest) = (String.length a + String.length rest)%nat.
Proof. induction a as [|c a IH]; simpl; [reflexivity | now rewrite IH]. Qed.

Lemma endswith_append (a p : string) : PyStr.endswith p (a +:+ p) = true.
Proof.
  unfold PyStr.endswith. rewrite append_length.
  replace (String.length a + String.length p - String.length p)%nat
    with (String.length a) by lia.
  rewrite drop_app_length, String.eqb_refl. simpl.
  apply Nat.leb_le. lia.
Qed.

(** X9: the URL a [PathSubmitter] stores always ends with a slash: a URL
    that ends with one is stored as it is and nothing is logged, any other
    URL gets the slash appended and a warning is logged; building the
    object sends nothing. *)
Theorem path_submitter_url_ends_with_slash :
  forall (url : string) (requester : HTTPRequester) (ts : list Tamperer)
         (tr : Trace),
    exists stored tr',
      PathSubmitter url requester ts tr
      = (Returned
           (with_tamperers ts
              {| tamperers := []; customizable := true; extra_params := ∅;
                 raw := PathSubmitter_submit_raw stored requester |}),
         tr')
      /\ PyStr.endswith "/" stored = true
      /\ requests tr' = requests tr
      /\ (PyStr.endswith "/" url = true -> stored = url /\ tr' = tr)
      /\ (PyStr.endswith "/" url = false ->
          stored = url +:+ "/"
          /\ tr' = tr ++ [Logged "submitter" WARNING
                            "PathSubmitter get a url that's not ends with '/', appending it."]).
Proof.
  intros url requester ts tr. unfold PathSubmitter.
  destruct (PyStr.endswith "/" url) eqn:E; cbn [negb].
  - exists url, tr. repeat split; try assumption; try reflexivity; discriminate.
  - eexists (url +:+ "/"), _. split; [reflexivity|].
    split; [apply endswith_append|].
    split; [rewrite requests_app; simpl; apply app_nil_r|].
    split; [discriminate | intros _; split; reflexivity].
Qed.

(** X10: [RequestSubmitter.submit_raw] sends exactly one request, with the
    stored method and URL.  With the method [POST] the payload is in the
    data under the target field, over any stored value, the other data and
    all parameters being the stored ones; with any other method (also
    [post]) it is in the parameters instead and the data are the stored
    ones. *)
Theorem request_submitter_places_payload :
  forall (url method field : string) (params data extra : gmap string string)
         (requester : HTTPRequester) (payload : string) (tr : Trace),
    let sent :=
      RequestSubmitter_submit_raw url method field params data requester
        extra payload tr in
    exists r,
      requests (snd sent) = requests tr ++ [r]
      /\ Py.method r = method /\ Py.url r = url
      /\ (method = "POST" ->
          Py.params r = params
          /\ Py.data r !! field = Some payload
          /\ forall k, k <> field -> Py.data r !! k = data !! k)
      /\ (method <> "POST" ->
          Py.data r = data
          /\ Py.params r !! field = Some payload
          /\ forall k, k <> field -> Py.params r !! k = params !! k).
Proof.
  intros url method field params data extra requester payload tr sent.
  subst sent. unfold RequestSubmitter_submit_raw.
  destruct (String.eqb method "POST") eqn:E;
    [apply String.eqb_eq in E | apply String.eqb_neq in E];
    unfold bind, log, emit, Py.request; cbn [fst snd];
    eexists; (split; [rewrite !requests_app; simpl; now rewrite ?app_nil_r|]);
    cbn [Py.method Py.url Py.params Py.data];
    (split; [reflexivity|]); (split; [reflexivity|]); split; intros Hm;
    try contradiction.
  - split; [reflexivity|]. split; [apply lookup_insert_eq|].
    intros k Hk. now apply lookup_insert_ne.
  - split; [reflexivity|]. split; [apply lookup_insert_eq|].
    intros k Hk. now apply lookup_insert_ne.
Qed.

Lemma replace_go_absent old new s :
  contains old s = false -> replace_go old new 0 s = s.
Proof.
  induction s as [|c rest IH]; [reflexivity|].
  cbn [contains replace_go]. intros Hc.
  apply orb_false_iff in Hc as [Hhead Hrest].
  rewrite Hhead. f_equal. now apply IH.
Qed.

(** X11: when the placeholder is not empty and does not occur in the
    pattern of a [TCPSubmitter], the request is the same for every payload:
    the pattern itself, or [update_content_length] of it. *)
Theorem tcp_request_without_placeholder_ignores_payload :
  forall (pattern toreplace : bytes) (urlencode update : bool)
         (payload : string),
    toreplace <> [] ->
    contains toreplace pattern = false ->
    TCPSubmitter_request pattern toreplace urlencode update payload
    = if update then update_content_length pattern else pattern.
Proof.
  intros pattern toreplace urlencode update payload Hne Habsent.
  unfold TCPSubmitter_request, replace.
  destruct toreplace as [|c toreplace]; [congruence|].
  now rewrite (replace_go_absent _ _ _ Habsent).
Qed.

End WithOutside.

Lemma submit_raises_what_a_tamperer_raises_witness :
  submit
    (with_tamperers
       [fun p => ret (p +:+ "a"); fun _ => raise (ValueError "no")]
       {| tamperers := []; customizable := false; extra_params := ∅;
          raw := sample_raw |})
    "x" []
  = (Raised (ValueError "no"),
     [Logged "submitter" DEBUG "Applying tampers..."]).
Proof.
  exact (submit_raises_what_a_tamperer_raises
           [fun p => ret (p +:+ "a"); fun _ => raise (ValueError "no")]
           {| tamperers := []; customizable := false; extra_params := ∅;
              raw := sample_raw |}
           "x" [] (ValueError "no")
           [Logged "submitter" DEBUG "Applying tampers..."]
           eq_refl eq_refl).
Defined.

Lemma tcp_request_without_placeholder_ignores_payload_witness :
  TCPSubmitter_request (b "GET /?q=1 HTTP/1.1") (b "PAYLOAD") true true
    "{{7*7}}"
  = b "GET /?q=1 HTTP/1.1".
Proof.
  exact (tcp_request_without_placeholder_ignores_payload
           (b "GET /?q=1 HTTP/1.1") (b "PAYLOAD") true true "{{7*7}}"
           ltac:(discriminate) eq_refl).
Defined.

End MoreSubmitterFacts.

Module MoreCliFacts.
Import Grammar Py Submitter SubmitterMore Cli CliMore MoreSamples.
Import PyStrFacts SubmitterFacts CliFacts MoreSubmitterFacts Samples.
Local Open Scope py_scope.

(** *** [partition] *)

Lemma take_drop (i : nat) (s : string) : take i s +:+ PyStr.drop i s = s.
Proof.
  revert s. induction i as [|i IH]; intros [|c s]; simpl; try reflexivity.
  change (String c (take i s +:+ PyStr.drop i s) = String c s).
  f_equal. apply IH.
Qed.

Lemma find_bound sep s i : find sep s = Some i -> (i <= String.length s)%nat.
Proof.
  revert i. induction s as [|c s IH]; intros i; cbn [find].
  - destruct (PyStr.startswith sep EmptyString); intros [= <-]; lia.
  - destruct (PyStr.startswith sep (String c s)); [intros [= <-]; simpl; lia|].
    destruct (find sep s) as [j|]; [|discriminate].
    intros [= <-]. specialize (IH j eq_refl). simpl. lia.
Qed.

Lemma find_here sep s i :
  find sep s = Some i -> PyStr.startswith sep (PyStr.drop i s) = true.
Proof.
  revert i. induction s as [|c s IH]; intros i; cbn [find].
  - destruct (PyStr.startswith sep EmptyString) eqn:E; intros [= <-]. exact E.
  - destruct (PyStr.startswith sep (String c s)) eqn:E; [intros [= <-]; exact E|].
    destruct (find sep s) as [j|]; [|discriminate].
    intros [= <-]. simpl. now apply IH.
Qed.

Lemma drop_drop (i j : nat) (s : string) :
  PyStr.drop j (PyStr.drop i s) = PyStr.drop (i + j) s.
Proof.
  revert s. induction i as [|i IH]; intros s; [reflexivity|].
  destruct s as [|c s]; simpl; [now destruct j | apply IH].
Qed.

(** When there is a third part, the separator was found and the three
    parts put together are the string. *)
Lemma partition_value sep s key m value :
  partition sep s = (key, m, value) -> value <> EmptyString ->
  m = sep /\ s = key +:+ sep +:+ value.
Proof.
  unfold partition. destruct (find sep s) as [i|] eqn:E.
  - intros [= <- <- <-] _. split; [reflexivity|].
    pose proof (find_here _ _ _ E) as Hs.
    apply startswith_spec in Hs as [rest Hrest].
    assert (PyStr.drop (i + String.length sep) s = rest) as ->
      by now rewrite <- drop_drop, Hrest, drop_app_length.
    rewrite <- Hrest. symmetry. apply take_drop.
  - intros [= <- <- <-] Hv. congruence.
Qed.

(** *** [parse_headers_cookies] *)

Section Headers.
Variable capitalize : string -> string.

Lemma nonempty_true s : nonempty s = true <-> s <> EmptyString.
Proof. destruct s; simpl; split; congruence. Qed.

Lemma nonempty_false s : nonempty s = false <-> s = EmptyString.
Proof. destruct s; simpl; split; congruence. Qed.

(** A well-formed line adds its entry, under the capitalized key. *)
Lemma parse_header_entry headers header key m value tr :
  partition ": " header = (key, m, value) ->
  key <> EmptyString -> value <> EmptyString ->
  exists tr',
    parse_header capitalize headers header tr
    = (Returned (<[capitalize key := value]> headers), tr')
    /\ requests tr' = requests tr.
Proof.
  intros Hp Hk Hv. unfold parse_header. rewrite Hp.
  apply nonempty_true in Hk. apply nonempty_true in Hv. rewrite Hk, Hv.
  cbn [negb orb].
  destruct (String.eqb (capitalize key) key) eqn:E; cbn [negb].
  - apply String.eqb_eq in E. rewrite E.
    exists tr. split; reflexivity.
  - eexists. split; [reflexivity|].
    rewrite requests_app. apply app_nil_r.
Qed.

(** Any other line is ignored, with a warning. *)
Lemma parse_header_ignored headers header key m value tr :
  partition ": " header = (key, m, value) ->
  key = EmptyString \/ value = EmptyString ->
  parse_header capitalize headers header tr
  = (Returned headers,
     tr ++ [Logged "cli" WARNING "Failed parsing %s, ignored."]).
Proof.
  intros Hp Hbad. unfold parse_header. rewrite Hp.
  assert (negb (nonempty key) || negb (nonempty value) = true) as ->;
    [|reflexivity].
  destruct Hbad as [-> | ->]; [reflexivity|].
  apply orb_true_r.
Qed.

Lemma parse_header_cases headers header tr :
  exists headers' tr',
    parse_header capitalize headers header tr = (Returned headers', tr')
    /\ requests tr' = requests tr
    /\ (headers' = headers
        \/ exists key value,
             partition ": " header = (key, ": ", value)
             /\ header = key +:+ ": " +:+ value
             /\ key <> EmptyString /\ value <> EmptyString
             /\ headers' = <[capitalize key := value]> headers).
Proof.
  destruct (partition ": " header) as [[key m] value] eqn:Hp.
  destruct (nonempty key) eqn:Hk.
  - destruct (nonempty value) eqn:Hv.
    + apply nonempty_true in Hk. apply nonempty_true in Hv.
      destruct (parse_header_entry headers header key m value tr Hp Hk Hv)
        as (tr' & E & Hr).
      destruct (partition_value _ _ _ _ _ Hp Hv) as [-> Hh].
      exists (<[capitalize key := value]> headers), tr'.
      split; [exact E|]. split; [exact Hr|]. right.
      exists key, value. now repeat split.
    + apply nonempty_false in Hv.
      rewrite (parse_header_ignored headers header key m value tr Hp
                 (or_intror Hv)).
      do 2 eexists. split; [reflexivity|].
      split; [rewrite requests_app; apply app_nil_r | now left].
  - apply nonempty_false in Hk.
    rewrite (parse_header_ignored headers header key m value tr Hp
               (or_introl Hk)).
    do 2 eexists. split; [reflexivity|].
    split; [rewrite requests_app; apply app_nil_r | now left].
Qed.

(** What [parse_header] returns does not depend on the trace. *)
Lemma parse_header_fst headers header tr tr0 :
  fst (parse_header capitalize headers header tr)
  = fst (parse_header capitalize headers header tr0).
Proof.
  unfold parse_header. destruct (partition ": " header) as [[key m] value].
  destruct (negb (nonempty key) || negb (nonempty value)); [reflexivity|].
  destruct (negb (String.eqb (capitalize key) key)); reflexivity.
Qed.

Lemma parse_headers_app headers l1 l2 tr :
  parse_headers capitalize headers (l1 ++ l2) tr
  = bind (parse_headers capitalize headers l1)
      (fun headers' => parse_headers capitalize headers' l2) tr.
Proof.
  revert headers tr. induction l1 as [|x l1 IH]; intros headers tr.
  - reflexivity.
  - cbn [app parse_headers]. rewrite bind_bind_run.
    destruct (parse_header capitalize headers x tr) as [[h|e] tr1] eqn:E.
    + rewrite !(bind_run _ _ _ _ _ E). apply IH.
    + now rewrite !(bind_run_raised _ _ _ _ _ E).
Qed.

(** The loop returns, sends nothing, and every entry of its dict was in
    the dict it started from or comes from a line of the list. *)
Lemma parse_headers_sound headers_list :
  forall headers tr,
    exists headers' tr',
      parse_headers capitalize headers headers_list tr
      = (Returned headers', tr')
      /\ requests tr' = requests tr
      /\ forall k v,
           headers' !! k = Some v ->
           headers !! k = Some v
           \/ exists header key,
                In header headers_list
                /\ partition ": " header = (key, ": ", v)
                /\ header = key +:+ ": " +:+ v
                /\ key <> EmptyString /\ v <> EmptyString
                /\ k = capitalize key.
Proof.
  induction headers_list as [|x l IH]; intros headers tr.
  - exists headers, tr. split; [reflexivity|]. split; [reflexivity|].
    intros k v Hkv. now left.
  - destruct (parse_header_cases headers x tr) as (h1 & tr1 & E1 & R1 & C1).
    destruct (IH h1 tr1) as (h2 & tr2 & E2 & R2 & C2).
    exists h2, tr2. cbn [parse_headers].
    rewrite (bind_run _ _ _ _ _ E1). split; [exact E2|].
    split; [congruence|].
    intros k v Hkv. destruct (C2 k v Hkv) as [Hin | (hd & key & Hl & Hrest)].
    + destruct C1 as [-> | (key & value & Hp & Hh & Hk & Hv & ->)];
        [now left|].
      destruct (decide (capitalize key = k)) as [<- | Hne].
      * rewrite lookup_insert_eq in Hin. injection Hin as ->.
        right. exists x, key. split; [now left | now repeat split].
      * rewrite lookup_insert_ne in Hin by exact Hne. now left.
    + right. exists hd, key. split; [now right | exact Hrest].
Qed.

Lemma parse_headers_fst headers_list :
  forall headers tr tr0,
    fst (parse_headers capitalize headers headers_list tr)
    = fst (parse_headers capitalize headers headers_list tr0).
Proof.
  induction headers_list as [|x l IH]; intros headers tr tr0; [reflexivity|].
  cbn [parse_headers]. unfold bind.
  pose proof (parse_header_fst headers x tr tr0) as Hx.
  destruct (parse_header_cases headers x tr) as (h1 & tr1 & E1 & _).
  destruct (parse_header_cases headers x tr0) as (h2 & tr2 & E2 & _).
  rewrite E1, E2 in Hx |- *. cbn [fst] in Hx. injection Hx as ->.
  apply IH.
Qed.

(** X12: [parse_headers_cookies] always returns a dict and sends nothing.
    A non-empty [cookies] is in the dict under [Cookie], over any line of
    the list.  Every other entry comes from a line of the list that reads
    [key: value], split at its first colon and space, with neither part
    empty; it is stored under the capitalized key. *)
Theorem parsed_headers_come_from_lines :
  forall (headers_list : list string) (cookies : string) (tr : Trace),
    exists headers tr',
      parse_headers_cookies capitalize headers_list cookies tr
      = (Returned headers, tr')
      /\ requests tr' = requests tr
      /\ (cookies <> EmptyString -> headers !! "Cookie" = Some cookies)
      /\ forall k v,
           headers !! k = Some v ->
           (k = "Cookie" /\ v = cookies /\ cookies <> EmptyString)
           \/ exists header key,
                In header headers_list
                /\ partition ": " header = (key, ": ", v)
                /\ header = key +:+ ": " +:+ v
                /\ key <> EmptyString /\ v <> EmptyString
                /\ k = capitalize key.
Proof.
  intros headers_list cookies tr.
  destruct (parse_headers_sound headers_list ∅ tr)
    as (h & tr' & E & R & C).
  unfold parse_headers_cookies. rewrite (bind_run _ _ _ _ _ E).
  destruct (nonempty cookies) eqn:Hc.
  - exists (<["Cookie" := cookies]> h), tr'. split; [reflexivity|].
    split; [exact R|]. split; [intros _; apply lookup_insert_eq|].
    intros k v Hkv. destruct (decide ("Cookie" = k)) as [<- | Hne].
    + rewrite lookup_insert_eq in Hkv. injection Hkv as <-.
      left. split; [reflexivity|]. split; [reflexivity|].
      now apply nonempty_true.
    + rewrite lookup_insert_ne in Hkv by exact Hne.
      destruct (C k v Hkv) as [Hempty | Hline];
        [now rewrite lookup_empty in Hempty | now right].
  - exists h, tr'. split; [reflexivity|]. split; [exact R|].
    apply nonempty_false in Hc. split; [congruence|].
    intros k v Hkv. destruct (C k v Hkv) as [Hempty | Hline];
      [now rewrite lookup_empty in Hempty | now right].
Qed.

(** X13: a later line wins over the lines before it: when the last line
    of the list splits into a non-empty key and a non-empty value, the
    dict has that value under the capitalized key, unless the key is
    [Cookie] and there are cookies. *)
Theorem last_header_line_wins :
  forall (before : list string) (header key m value cookies : string)
         (tr : Trace),
    partition ": " header = (key, m, value) ->
    key <> EmptyString -> value <> EmptyString ->
    capitalize key <> "Cookie" \/ cookies = EmptyString ->
    exists headers tr',
      parse_headers_cookies capitalize (before ++ [header]) cookies tr
      = (Returned headers, tr')
      /\ headers !! capitalize key = Some value.
Proof.
  intros before header key m value cookies tr Hp Hk Hv Hc.
  destruct (parse_headers_sound before ∅ tr) as (h & tr1 & E & _).
  destruct (parse_header_entry h header key m value tr1 Hp Hk Hv)
    as (tr2 & E2 & _).
  unfold parse_headers_cookies. unfold bind at 1.
  rewrite parse_headers_app. rewrite (bind_run _ _ _ _ _ E).
  cbn [parse_headers]. rewrite (bind_run _ _ _ _ _ E2). cbn [ret].
  destruct (nonempty cookies) eqn:Hn.
  - do 2 eexists. split; [reflexivity|].
    destruct Hc as [Hc | ->]; [|discriminate].
    rewrite lookup_insert_ne by congruence. apply lookup_insert_eq.
  - do 2 eexists. split; [reflexivity|]. apply lookup_insert_eq.
Qed.

(** X14: a line that has no colon and space, or nothing before or nothing
    after the first one, changes nothing in the dict returned: it is the
    dict the list without that line gives. *)
Theorem malformed_header_line_is_ignored :
  forall (before after : list string) (header key m value cookies : string)
         (tr : Trace),
    partition ": " header = (key, m, value) ->
    key = EmptyString \/ value = EmptyString ->
    fst (parse_headers_cookies capitalize (before ++ header :: after)
           cookies tr)
    = fst (parse_headers_cookies capitalize (before ++ after) cookies tr).
Proof.
  intros before after header key m value cookies tr Hp Hbad.
  destruct (parse_headers_sound before ∅ tr) as (h & tr1 & E & _).
  unfold parse_headers_cookies. unfold bind.
  rewrite !parse_headers_app.
  rewrite !(bind_run _ _ _ _ _ E). cbn [parse_headers].
  rewrite (bind_run _ _ _ _ _
             (parse_header_ignored h header key m value tr1 Hp Hbad)).
  pose proof (parse_headers_fst after h
                (tr1 ++ [Logged "cli" WARNING "Failed parsing %s, ignored."])
                tr1) as Hf.
  destruct (parse_headers_sound after h
              (tr1 ++ [Logged "cli" WARNING "Failed parsing %s, ignored."]))
    as (h1 & t1 & E1 & _).
  destruct (parse_headers_sound after h tr1) as (h2 & t2 & E2 & _).
  rewrite E1, E2 in Hf |- *. cbn [fst] in Hf. injection Hf as ->.
  now destruct (nonempty cookies).
Qed.

End Headers.

Lemma last_header_line_wins_witness :
  exists headers tr',
    parse_headers_cookies ascii_capitalize
      (["accept: text/html"] ++ ["user-agent: x: y"]) "sid=1" []
    = (Returned headers, tr')
    /\ headers !! ascii_capitalize "user-agent" = Some "x: y".
Proof.
  apply (last_header_line_wins ascii_capitalize ["accept: text/html"]
           "user-agent: x: y" "user-agent" ": " "x: y" "sid=1" []);
    [reflexivity | discriminate | discriminate |].
  left. intros E. vm_compute in E. discriminate.
Defined.

Lemma malformed_header_line_is_ignored_witness :
  fst (parse_headers_cookies ascii_capitalize
         (["Accept: text/html"] ++ "Host:example.org" :: ["Referer: /"])
         "" [])
  = fst (parse_headers_cookies ascii_capitalize
           (["Accept: text/html"] ++ ["Referer: /"]) "" []).
Proof.
  apply (malformed_header_line_is_ignored ascii_capitalize
           ["Accept: text/html"] ["Referer: /"] "Host:example.org"
           "Host:example.org" "" "" "" []);
    [reflexivity | now right].
Defined.

(** *** What [is_form_has_response] sends *)

Section Probes.
Context `{Outside}.
Variables (url : string) (form : Form) (requester : HTTPRequester)
          (tamper_cmd : option string).

Lemma choices_requests population k :
  forall tr letters tr',
    choices population k tr = (Returned letters, tr') ->
    requests tr' = requests tr.
Proof.
  induction k as [|k IH]; intros tr letters tr'; cbn [choices].
  - now intros [= _ <-].
  - unfold bind at 1. unfold choice at 1.
    unfold bind at 1.
    destruct (choices population k _) as [[cs|e] tr1] eqn:E; [|discriminate].
    intros [= _ <-]. rewrite (IH _ _ _ E), requests_app. apply app_nil_r.
Qed.

(** One [submit] of the submitter built for a field: when it returns, one
    request was sent, the form filled for that field. *)
Lemma field_submit_sends field payload tr r tr' :
  submit (field_submitter url form requester tamper_cmd field) payload tr
  = (Returned r, tr') ->
  exists p,
    requests tr' = requests tr ++ [fill_form url form {[ field := p ]} ∅].
Proof.
  set (self := field_submitter url form requester tamper_cmd field).
  assert (raw self = FormSubmitter_submit_raw url form field requester) as Hraw
    by (subst self; unfold field_submitter;
        destruct tamper_cmd as [[|c cmd]|]; reflexivity).
  assert (extra_params self = ∅) as Hextra
    by (subst self; unfold field_submitter;
        destruct tamper_cmd as [[|c cmd]|]; reflexivity).
  assert (forall p t resp t',
             submit_raw self p t = (resp, t') ->
             requests t' = requests t ++ [fill_form url form {[ field := p ]} ∅])
    as Hsent.
  { intros p t resp t'. unfold submit_raw. rewrite Hraw, Hextra.
    unfold FormSubmitter_submit_raw, bind, emit, ret, Py.request.
    destruct (requester t _) as [resp0|]; intros [= _ <-];
      rewrite !requests_app; simpl; now rewrite app_nil_r. }
  assert (forall p t1,
             (match tamperers self with
              | [] => ret payload
              | _ :: _ =>
                  log "submitter" DEBUG "Applying tampers..." ;;;
                  apply_tamperers (tamperers self) payload
              end) tr = (Returned p, t1) ->
             requests t1 = requests tr) as Hpre.
  { subst self. unfold field_submitter.
    destruct tamper_cmd as [[|c cmd]|]; cbn [tamperers_of fold_left];
      try (intros p t1 [= _ <-]; reflexivity).
    intros p t1. cbn [FormSubmitter fold_left add_tamperer tamperers app].
    unfold bind at 1, log, emit. cbn [apply_tamperers].
    unfold bind at 1.
    pose proof (shell_tamperer_requests (String c cmd) payload
                  (tr ++ [Logged "submitter" DEBUG "Applying tampers..."]))
      as Hr.
    destruct (shell_tamperer (String c cmd) payload _) as [[out|e] t2];
      [|discriminate].
    intros [= _ <-]. cbn [snd] in Hr. rewrite Hr, requests_app.
    apply app_nil_r. }
  intros E.
  destruct ((match tamperers self with
             | [] => ret payload
             | _ :: _ =>
                 log "submitter" DEBUG "Applying tampers..." ;;;
                 apply_tamperers (tamperers self) payload
             end) tr) as [[p|e] t1] eqn:Epre.
  - rewrite (submit_unfolded self payload tr p t1 Epre) in E.
    destruct (submit_raw self p _) as [resp t2] eqn:Eraw.
    injection E as _ <-. exists p.
    rewrite (Hsent _ _ _ _ Eraw), requests_app, (Hpre _ _ eq_refl).
    simpl. now rewrite app_nil_r.
  - unfold submit in E. rewrite (bind_run_raised _ _ _ _ _ Epre) in E.
    discriminate.
Qed.

Lemma for_each_submit_sends field marker patterns :
  forall tr results tr',
    for_each
      (fun pattern =>
         submit (field_submitter url form requester tamper_cmd field)
           (pattern +:+ marker))
      patterns tr
    = (Returned results, tr') ->
    exists sent,
      requests tr' = requests tr ++ sent
      /\ List.length sent = List.length patterns
      /\ Forall (fun r => exists p, r = fill_form url form {[ field := p ]} ∅)
           sent.
Proof.
  induction patterns as [|x xs IH]; intros tr results tr'; cbn [for_each].
  - intros [= _ <-]. exists []. rewrite app_nil_r. now repeat split.
  - unfold bind at 1.
    destruct (submit _ (x +:+ marker) tr) as [[r|e] t1] eqn:E1; [|discriminate].
    unfold bind at 1.
    destruct (for_each _ xs t1) as [[rs|e] t2] eqn:E2; [|discriminate].
    intros [= _ <-].
    destruct (field_submit_sends _ _ _ _ _ E1) as (p & Hp).
    destruct (IH _ _ _ E2) as (sent & Hs & Hlen & Hall).
    exists (fill_form url form {[ field := p ]} ∅ :: sent).
    split; [rewrite Hs, Hp, <- app_assoc; reflexivity|].
    split; [simpl; now rewrite Hlen|].
    constructor; [now exists p | exact Hall].
Qed.

Lemma probe_field_sends field tr probed tr' :
  probe_field url form requester tamper_cmd field tr = (Returned probed, tr') ->
  exists sent,
    requests tr' = requests tr ++ sent
    /\ List.length sent = 4%nat
    /\ Forall (fun r => exists p, r = fill_form url form {[ field := p ]} ∅)
         sent.
Proof.
  destruct probed as [[marker result1] musterror]. intros E.
  destruct (probe_field_inv _ _ _ _ _ _ _ _ _ _ E)
    as (_ & _ & trA & trB & Ec & Es & Ef).
  apply choices_requests in Ec.
  destruct (field_submit_sends _ _ _ _ _ Es) as (p & Hp).
  destruct (for_each_submit_sends _ _ _ _ _ _ Ef) as (sent & Hs & Hlen & Hall).
  exists (fill_form url form {[ field := p ]} ∅ :: sent).
  split; [rewrite Hs, Hp, Ec, <- app_assoc; reflexivity|].
  split; [simpl; now rewrite Hlen|].
  constructor; [now exists p | exact Hall].
Qed.

Lemma probe_fields_sends fields :
  forall tr answer tr',
    probe_fields url form requester tamper_cmd fields tr
    = (Returned answer, tr') ->
    exists k sent,
      requests tr' = requests tr ++ sent
      /\ List.length sent = (4 * k)%nat
      /\ (k <= List.length fields)%nat
      /\ (answer = false -> k = List.length fields)
      /\ (answer = true -> (1 <= k)%nat)
      /\ Forall (fun r => exists field p,
                   In field fields
                   /\ r = fill_form url form {[ field := p ]} ∅) sent.
Proof.
  induction fields as [|f fields IH]; intros tr answer tr'; cbn [probe_fields].
  - intros [= <- <-]. exists 0%nat, []. rewrite app_nil_r.
    repeat split; try reflexivity; try discriminate; constructor.
  - unfold bind at 1.
    destruct (probe_field url form requester tamper_cmd f tr)
      as [[[[marker result1] musterror]|e] t1] eqn:E1; [|discriminate].
    destruct (probe_field_sends _ _ _ _ E1) as (sent1 & Hs1 & Hlen1 & Hall1).
    assert (Forall (fun r => exists field p,
                      In field (f :: fields)
                      /\ r = fill_form url form {[ field := p ]} ∅) sent1)
      as Hall1'.
    { eapply List.Forall_impl; [|exact Hall1].
      intros r (p & ->). exists f, p. split; [now left | reflexivity]. }
    destruct (responds marker result1 musterror).
    + intros [= <- <-]. exists 1%nat, sent1.
      split; [exact Hs1|]. split; [exact Hlen1|].
      split; [simpl; lia|]. split; [discriminate|].
      split; [intros _; lia | exact Hall1'].
    + intros E2. destruct (IH _ _ _ E2)
        as (k & sent & Hs & Hlen & Hle & Hf & Ht & Hall).
      exists (S k), (sent1 ++ sent).
      split; [rewrite Hs, Hs1, <- app_assoc; reflexivity|].
      split; [rewrite length_app, Hlen1, Hlen; lia|].
      split; [simpl; lia|].
      split; [intros Ha; simpl; now rewrite (Hf Ha)|].
      split; [intros _; lia|].
      apply Forall_app. split; [exact Hall1'|].
      eapply List.Forall_impl; [|exact Hall].
      intros r (field & p & Hin & ->). exists field, p.
      split; [now right | reflexivity].
Qed.

End Probes.

(** X15: when [is_form_has_response] returns, it has sent four requests
    for each field it probed and nothing else: it probed all the fields of
    the form when the answer is [False], at least one and at most all of
    them when it is [True]; each request is the form filled for one of its
    input fields, with no extra parameters. *)
Theorem form_probe_sends_four_requests_per_field :
  forall `{Outside} (url : string) (form : Form) (requester : HTTPRequester)
         (tamper_cmd : option string) (tr : Trace) (answer : bool)
         (tr' : Trace),
    is_form_has_response url form requester tamper_cmd tr
    = (Returned answer, tr') ->
    exists (k : nat) (sent : list Request),
      requests tr' = requests tr ++ sent
      /\ List.length sent = (4 * k)%nat
      /\ (k <= List.length (inputs form))%nat
      /\ (answer = false -> k = List.length (inputs form))
      /\ (answer = true -> (1 <= k)%nat)
      /\ Forall (fun r => exists field p,
                   In field (inputs form)
                   /\ r = fill_form url form {[ field := p ]} ∅) sent.
Proof.
  intros O url form requester tamper_cmd tr answer tr'.
  unfold is_form_has_response. unfold bind at 1, when, log, emit, ret.
  destruct (PyStr.contains "127.0.0.1" url || PyStr.contains "localhost" url);
    intros E;
    destruct (probe_fields_sends url form requester tamper_cmd _ _ _ _ E)
      as (k & sent & Hs & Hrest);
    exists k, sent; (split; [|exact Hrest]); rewrite Hs;
    rewrite ?requests_app; simpl; now rewrite ?app_nil_r.
Qed.

Lemma form_probe_sends_four_requests_per_field_witness :
  exists (k : nat) (sent : list Request),
    requests
      (snd (is_form_has_response "http://target/" sample_form renders None []))
    = requests [] ++ sent
    /\ List.length sent = (4 * k)%nat
    /\ (k <= List.length (inputs sample_form))%nat
    /\ (true = false -> k = List.length (inputs sample_form))
    /\ (true = true -> (1 <= k)%nat)
    /\ Forall (fun r => exists field p,
                 In field (inputs sample_form)
                 /\ r = fill_form "http://target/" sample_form
                          {[ field := p ]} ∅) sent.
Proof.
  assert (fst (is_form_has_response "http://target/" sample_form renders
                 None [])
          = Returned true) as Hfst by (vm_compute; reflexivity).
  apply (form_probe_sends_four_requests_per_field "http://target/"
           sample_form renders None [] true).
  rewrite <- Hfst. apply surjective_pairing.
Defined.

(** *** A tamper command that fails *)

Section FailingTamper.
Context `{Outside}.

Lemma field_submit_fails url form requester c cmd field payload tr :
  (forall t input, fst (popen t (String c cmd) input) <> 0%Z) ->
  exists tr',
    submit (field_submitter url form requester (Some (String c cmd)) field)
      payload tr
    = (Raised (ValueError "Shell command return non-zero code"), tr')
    /\ requests tr' = requests tr.
Proof.
  intros Hfail.
  set (started := tr ++ [Logged "submitter" DEBUG "Applying tampers..."]).
  destruct (shell_tamperer_fails (String c cmd) payload started
              (Hfail started payload)) as [Hf Hr].
  exists (started ++ [Spawned (String c cmd) payload]). split.
  - unfold submit, field_submitter.
    cbn [tamperers_of fold_left FormSubmitter add_tamperer tamperers app].
    apply bind_run_raised.
    unfold bind at 1, log, emit. fold started.
    cbn [apply_tamperers]. now apply bind_run_raised.
  - rewrite Hr. subst started. rewrite requests_app. apply app_nil_r.
Qed.

End FailingTamper.

(** X16: with a tamper command that exits with a code other than 0 and a
    form that has an input field, [is_form_has_response] raises the
    [ValueError] of the tamperer on the first probe and has sent
    nothing. *)
Theorem failing_tamper_command_stops_probe :
  forall `{Outside} (url : string) (form : Form) (requester : HTTPRequester)
         (c : ascii) (cmd field : string) (fields : list string) (tr : Trace),
    inputs form = field :: fields ->
    (forall t input, fst (popen t (String c cmd) input) <> 0%Z) ->
    exists tr',
      is_form_has_response url form requester (Some (String c cmd)) tr
      = (Raised (ValueError "Shell command return non-zero code"), tr')
      /\ requests tr' = requests tr.
Proof.
  intros O url form requester c cmd field fields tr Hin Hfail.
  unfold is_form_has_response. rewrite Hin. cbn [probe_fields].
  assert (forall start,
             exists tr',
               probe_field url form requester (Some (String c cmd)) field start
               = (Raised (ValueError "Shell command return non-zero code"),
                  tr')
               /\ requests tr' = requests start) as Hprobe.
  { intros start. unfold probe_field.
    fold (field_submitter url form requester (Some (String c cmd)) field).
    destruct (choices_returns 4 start) as (letters & trA & Ec & _).
    rewrite (bind_run _ _ _ _ _ Ec).
    destruct (field_submit_fails url form requester c cmd field
                (string_of_list_ascii letters) trA Hfail) as (tr' & E & Hr).
    exists tr'. split; [now apply bind_run_raised|].
    rewrite Hr. exact (choices_requests _ _ _ _ _ Ec). }
  unfold bind at 1, when, log, emit, ret.
  destruct (PyStr.contains "127.0.0.1" url || PyStr.contains "localhost" url).
  - destruct (Hprobe (tr ++ [Logged "cli" INFO
       "Try out our new feature [cyan bold]crack-keywords[/] with ..."]))
      as (tr' & E & Hr).
    exists tr'. split; [now apply bind_run_raised|].
    rewrite Hr, requests_app. apply app_nil_r.
  - destruct (Hprobe tr) as (tr' & E & Hr).
    exists tr'. split; [now apply bind_run_raised | exact Hr].
Qed.

Lemma failing_tamper_command_stops_probe_witness :
  exists tr',
    @is_form_has_response failing_shell "http://target/" sample_form renders
      (Some "false") []
    = (Raised (ValueError "Shell command return non-zero code"), tr')
    /\ requests tr' = requests [].
Proof.
  apply (@failing_tamper_command_stops_probe failing_shell "http://target/"
           sample_form renders "f"%char "alse" "name" [] []);
    [reflexivity | intros t input; discriminate].
Defined.

(** *** [do_submit_cmdexec] *)

Section Commands.
Context `{Outside}.

(** The trace when the payload is handed to [submit]. *)
Lemma announce_run (will_print : option bool) (st : Session) :
  (on_trace (log "cli" INFO "Submit payload [blue]%s[/]") ;;;
   when (negb (truthy will_print))
     (on_trace
        (log "cli" WARNING
           "Payload generator says that this payload [red]won't print[/] command execution result."))) st
  = (Returned tt,
     mkSession (submitter st)
       (trace st ++ [Logged "cli" INFO "Submit payload [blue]%s[/]"]
        ++ (if truthy will_print then []
            else [Logged "cli" WARNING
                    "Payload generator says that this payload [red]won't print[/] command execution result."]))).
Proof.
  unfold bind, on_trace, log, emit, when, ret. cbn [trace submitter].
  destruct (truthy will_print); cbn [negb trace submitter].
  - now rewrite app_nil_r.
  - now rewrite <- app_assoc.
Qed.

End Commands.

(** X17: when [submit] hands back no response for the payload generated
    for a shell command (a command that does not start with [@]),
    [do_submit_cmdexec] fails its assertion: it raises [AssertionError]
    rather than returning a text, and leaves the submitter as it was. *)
Theorem no_response_fails_assertion :
  forall `{Outside} (self : BaseSubmitter) (tr : Trace) (c : ascii)
         (rest : string) (generate : generator) (payload : string)
         (will_print : option bool) (tr2 : Trace),
    c <> "@"%char ->
    generate OS_POPEN_READ [Str (String c rest)] = (Some payload, will_print) ->
    submit self payload
      (tr ++ [Logged "cli" INFO "Submit payload [blue]%s[/]"]
       ++ (if truthy will_print then []
           else [Logged "cli" WARNING
                   "Payload generator says that this payload [red]won't print[/] command execution result."]))
    = (Returned None, tr2) ->
    do_submit_cmdexec (String c rest) generate (mkSession self tr)
    = (Raised AssertionError, mkSession self tr2).
Proof.
  intros O self tr c rest generate payload will_print tr2 Hc Hgen Hsub.
  unfold do_submit_cmdexec, parse_command.
  apply Ascii.eqb_neq in Hc. rewrite Hc.
  rewrite bind_ret_l, Hgen.
  rewrite <- bind_bind_run.
  rewrite (bind_run _ _ _ _ _ (announce_run will_print (mkSession self tr))).
  cbn [submitter trace].
  unfold bind at 1, the_submitter. cbn [submitter].
  unfold bind at 1, on_trace at 1. cbn [trace submitter].
  now rewrite Hsub.
Qed.

Lemma no_response_fails_assertion_witness :
  do_submit_cmdexec "ls" (one_payload "{{ 7*7 }}")
    (mkSession sample_path_submitter [])
  = (Raised AssertionError,
     mkSession sample_path_submitter
       (snd (submit sample_path_submitter "{{ 7*7 }}"
               [Logged "cli" INFO "Submit payload [blue]%s[/]"]))).
Proof.
  assert (fst (submit sample_path_submitter "{{ 7*7 }}"
                 [Logged "cli" INFO "Submit payload [blue]%s[/]"])
          = Returned None) as Hfst by (vm_compute; reflexivity).
  apply (no_response_fails_assertion sample_path_submitter [] "l"%char "s"
           (one_payload "{{ 7*7 }}") "{{ 7*7 }}" (Some true));
    [discriminate | reflexivity |].
  cbn [truthy app]. rewrite <- Hfst. apply surjective_pairing.
Defined.

(** X18: [@findflag] on a submitter that takes extra parameters.  Whenever
    the function returns, the parameter [eval_this] it set is deleted
    again: the extra parameters are the ones from before the call without
    that key, and the tamperers and the class are untouched.  It returns
    the empty string, with nothing submitted, when no payload is generated;
    otherwise the payload was submitted with [eval_this] set to the flag
    finding code, and the answer is the formatted list of flags or
    [GETFLAG_FAILED] when none is found. *)
Theorem findflag_removes_its_extra_param :
  forall `{Outside} (self : BaseSubmitter) (tr : Trace) (rest : string)
         (generate : generator) (out : string) (st' : Session),
    customizable self = true ->
    do_submit_cmdexec ("@findflag" +:+ rest) generate (mkSession self tr)
    = (Returned out, st') ->
    let self1 := set_extra_param "eval_this" GETFLAG_CODE_EVAL self in
    let generated :=
      generate EVAL
        [Req (ITEM (ATTRIBUTE (FLASK_CONTEXT_VAR "request") "values")
                "eval_this")] in
    extra_params (submitter st') = delete "eval_this" (extra_params self)
    /\ tamperers (submitter st') = tamperers self
    /\ customizable (submitter st') = true
    /\ raw (submitter st') = raw self
    /\ match fst generated with
       | None => out = EmptyString /\ trace st' = tr ++ [failed_warning]
       | Some payload =>
           exists result tr2 flag_data,
             submit self1 payload
               (tr ++ [Logged "cli" INFO "Submit payload [blue]%s[/]"]
                ++ (if truthy (snd generated) then []
                    else [Logged "cli" WARNING
                            "Payload generator says that this payload [red]won't print[/] command execution result."]))
             = (Returned (Some result), tr2)
             /\ parse_getflag_info (text result) tr2
                = (Returned flag_data, trace st')
             /\ out = match flag_data with
                      | Some (flag :: flags) => strip (pformat (flag :: flags))
                      | _ => "GETFLAG_FAILED"
                      end
       end.
Proof.
  intros O self tr rest generate out st' Hcust Hrun self1 generated.
  assert (extra_params self1 !! "eval_this" = Some GETFLAG_CODE_EVAL) as Hset
    by apply lookup_insert_eq.
  assert (delete "eval_this" (extra_params self1)
          = delete "eval_this" (extra_params self)) as Hdel
    by apply delete_insert_eq.
  assert (forall t,
             do_unset_extra_param "eval_this" (mkSession self1 t)
             = (Returned tt,
                mkSession
                  {| tamperers := tamperers self;
                     customizable := customizable self;
                     extra_params := delete "eval_this" (extra_params self);
                     raw := raw self |} t)) as Hunset.
  { intros t. unfold do_unset_extra_param, unset_extra_param.
    cbn [submitter trace]. rewrite Hset, Hdel. reflexivity. }
  assert (parse_command ("@findflag" +:+ rest) generate (mkSession self tr)
          = (Returned (inr (generated, true)), mkSession self1 tr)) as Hparse.
  { change ("@findflag" +:+ rest)
      with (String "@"%char ("findflag" +:+ rest)).
    unfold parse_command.
    change (Ascii.eqb "@" "@") with true. cbv iota.
    change (PyStr.startswith "get-config" ("findflag" +:+ rest)) with false.
    assert (PyStr.startswith "findflag" ("findflag" +:+ rest) = true) as ->
      by (apply startswith_spec; now exists rest).
    unfold bind, the_submitter, do_set_extra_param, ret.
    cbn [submitter trace]. now rewrite Hcust. }
  unfold do_submit_cmdexec in Hrun.
  rewrite (bind_run _ _ _ _ _ Hparse) in Hrun.
  destruct generated as [[payload|] will_print] eqn:Hgen; cbn [fst snd].
  - rewrite <- bind_bind_run in Hrun.
    rewrite (bind_run _ _ _ _ _
               (announce_run will_print (mkSession self1 tr))) in Hrun.
    cbn [submitter trace] in Hrun.
    unfold bind at 1, the_submitter in Hrun. cbn [submitter] in Hrun.
    unfold bind at 1, on_trace at 1 in Hrun. cbn [trace submitter] in Hrun.
    destruct (submit self1 payload _) as [[[result|]|e] tr2] eqn:Esub;
      [|discriminate|discriminate].
    unfold bind at 1, on_trace at 1 in Hrun. cbn [trace submitter] in Hrun.
    destruct (parse_getflag_info (text result) tr2) as [[flag_data|e] tr3]
      eqn:Eflag; [|discriminate].
    unfold bind at 1, the_submitter in Hrun. cbn [submitter] in Hrun.
    replace (customizable self1) with true in Hrun
      by (symmetry; exact Hcust).
    unfold when in Hrun. rewrite (bind_run _ _ _ _ _ (Hunset tr3)) in Hrun.
    assert (st' = mkSession
                    {| tamperers := tamperers self;
                       customizable := customizable self;
                       extra_params := delete "eval_this" (extra_params self);
                       raw := raw self |} tr3
            /\ out = match flag_data with
                     | Some (flag :: flags) => strip (pformat (flag :: flags))
                     | _ => "GETFLAG_FAILED"
                     end) as [-> ->].
    { destruct flag_data as [[|flag flags]|]; injection Hrun as <- <-;
        now split. }
    cbn [submitter trace extra_params tamperers customizable raw].
    split; [reflexivity|]. split; [reflexivity|]. split; [exact Hcust|].
    split; [reflexivity|]. exists result, tr2, flag_data. now repeat split.
  - unfold bind at 1, on_trace at 1, log, emit in Hrun.
    cbn [trace submitter] in Hrun.
    unfold bind at 1, the_submitter in Hrun. cbn [submitter] in Hrun.
    replace (customizable self1) with true in Hrun
      by (symmetry; exact Hcust).
    unfold when in Hrun.
    rewrite (bind_run _ _ _ _ _
               (Hunset (tr ++ [Logged "cli" WARNING
                                 "[red]Failed[/] generating payload."])))
      in Hrun.
    injection Hrun as <- <-.
    cbn [submitter trace extra_params tamperers customizable raw].
    split; [reflexivity|]. split; [reflexivity|]. split; [exact Hcust|].
    now repeat split.
Qed.

Lemma findflag_removes_its_extra_param_witness :
  let st' :=
    snd (do_submit_cmdexec ("@findflag" +:+ "") (one_payload "{{x}}")
           (mkSession sample_path_submitter [])) in
  extra_params (submitter st')
  = delete "eval_this" (extra_params sample_path_submitter)
  /\ tamperers (submitter st') = tamperers sample_path_submitter
  /\ customizable (submitter st') = true
  /\ raw (submitter st') = raw sample_path_submitter
  /\ match fst (one_payload "{{x}}" EVAL
                  [Req (ITEM (ATTRIBUTE (FLASK_CONTEXT_VAR "request")
                                "values") "eval_this")]) with
     | None => "GETFLAG_FAILED" = EmptyString /\ trace st' = [] ++ [failed_warning]
     | Some payload =>
         exists result tr2 flag_data,
           submit
             (set_extra_param "eval_this" GETFLAG_CODE_EVAL
                sample_path_submitter)
             payload
             ([] ++ [Logged "cli" INFO "Submit payload [blue]%s[/]"]
              ++ (if truthy
                       (snd (one_payload "{{x}}" EVAL
                               [Req (ITEM (ATTRIBUTE
                                             (FLASK_CONTEXT_VAR "request")
                                             "values") "eval_this")]))
                  then []
                  else [Logged "cli" WARNING
                          "Payload generator says that this payload [red]won't print[/] command execution result."]))
           = (Returned (Some result), tr2)
           /\ parse_getflag_info (text result) tr2
              = (Returned flag_data, trace st')
           /\ "GETFLAG_FAILED"
              = match flag_data with
                | Some (flag :: flags) => strip (pformat (flag :: flags))
                | _ => "GETFLAG_FAILED"
                end
     end.
Proof.
  assert (fst (do_submit_cmdexec ("@findflag" +:+ "") (one_payload "{{x}}")
                 (mkSession sample_path_submitter []))
          = Returned "GETFLAG_FAILED") as Hfst by (vm_compute; reflexivity).
  apply (findflag_removes_its_extra_param sample_path_submitter [] ""
           (one_payload "{{x}}") "GETFLAG_FAILED");
    [reflexivity|].
  rewrite <- Hfst. apply surjective_pairing.
Defined.

(** X19: the commands for which [do_submit_cmdexec] submits nothing,
    whatever the payload generator would answer.  The empty command raises
    [IndexError] and leaves the trace as it was.  [@findflag] on a
    submitter that takes no extra parameters, and an [@] command that
    starts with none of the known words, add one log message to the trace,
    no request, and return the empty string; the submitter is left as it
    was. *)
Theorem commands_that_submit_nothing :
  forall `{Outside} (self : BaseSubmitter) (tr : Trace) (generate : generator),
    do_submit_cmdexec "" generate (mkSession self tr)
    = (Raised IndexError, mkSession self tr)
    /\ (forall rest : string,
          customizable self = false ->
          do_submit_cmdexec ("@findflag" +:+ rest) generate (mkSession self tr)
          = (Returned EmptyString,
             mkSession self
               (tr ++ [Logged "cli" WARNING
                         "@findflag is [red bold]not supported[/] for this"])))
    /\ (forall cmd : string,
          existsb (fun word => PyStr.startswith word cmd)
            ["get-config"; "findflag"; "eval"; "ls"; "cat"; "exec"] = false ->
          do_submit_cmdexec (String "@"%char cmd) generate (mkSession self tr)
          = (Returned EmptyString,
             mkSession self
               (tr ++ [Logged "cli" INFO "Please check your command"]))).
Proof.
  intros O self tr generate. split; [reflexivity|]. split.
  - intros rest Hcust.
    change ("@findflag" +:+ rest)
      with (String "@"%char ("findflag" +:+ rest)).
    unfold do_submit_cmdexec, parse_command.
    change (Ascii.eqb "@" "@") with true. cbv iota.
    change (PyStr.startswith "get-config" ("findflag" +:+ rest)) with false.
    assert (PyStr.startswith "findflag" ("findflag" +:+ rest) = true) as ->
      by (apply startswith_spec; now exists rest).
    unfold bind, the_submitter, on_trace, log, emit, ret.
    cbn [submitter trace]. now rewrite Hcust.
  - intros cmd Hnone. cbn [existsb] in Hnone.
    repeat (apply orb_false_iff in Hnone as [? Hnone]).
    unfold do_submit_cmdexec, parse_command.
    change (Ascii.eqb "@" "@") with true. cbv iota.
    repeat match goal with
           | E : PyStr.startswith _ cmd = false |- _ => rewrite E; clear E
           end.
    reflexivity.
Qed.

End MoreCliFacts.
